(** * Mycroft GUI: session synchronisation of [AbstractSkillView] and the
      utterance path of [MycroftController]

    A shallow embedding of [import/abstractskillview.cpp] and
    [import/mycroftcontroller.cpp].  Qt values are modelled by inductive
    types ([QJsonValue], [QVariant]), [QObject]s allocated with [new] live in
    typed stores indexed by addresses, [QHash]/[QQmlPropertyMap] are finite
    maps, and every slot is a function from the object's state to its next
    state.  [qWarning] appends to a log and [emit] appends to a signal trace,
    so that "reported" and "signalled" are observable in the model. *)

From Stdlib Require Import ZArith QArith.
From stdpp Require Import gmap strings list fin_maps.

Open Scope string_scope.
Open Scope list_scope.

Set Warnings "-register-all".

(** ** Qt value types *)

Abbreviation QString := string (only parsing).

(** A [QUrl] is kept as the text it was built from, and [isEmpty] is asked of
    that text: a frame is taken to carry either no URL or one Qt accepts. *)
Abbreviation QUrl := string (only parsing).

(** Address of a heap-allocated [QObject]. *)
Abbreviation ptr := nat (only parsing).

(** [QJsonValue]: a JSON number is a double; it is kept as the rational it
    denotes, which is all [toInt] looks at. *)
Inductive QJsonValue :=
| JUndefined
| JNull
| JBool (b : bool)
| JDouble (d : Q)
| JString (s : string)
| JArray (a : list QJsonValue)
| JObject (o : list (string * QJsonValue)).

Abbreviation QJsonObject := (list (string * QJsonValue)) (only parsing).

(** [QVariant], as produced by [QJsonValue::toVariant], plus a [QObject*]
    payload ([QVariant::fromValue(dm)]). *)
Inductive QVariant :=
| VInvalid
| VNullptr
| VBool (b : bool)
| VDouble (d : Q)
| VString (s : string)
| VList (l : list QVariant)
| VMap (m : list (string * QVariant))
| VObject (p : nat).

(** [QVariantMap] is a [QMap<QString, QVariant>]: an association list in key
    order. *)
Abbreviation QVariantMap := (list (string * QVariant)) (only parsing).

(** A parsed frame: the result of [QJsonDocument::fromJson]. *)
Inductive QJsonDocument :=
| DocNull
| DocArray (a : list QJsonValue)
| DocObject (o : list (string * QJsonValue)).

Module Json.

Fixpoint value (o : QJsonObject) (key : QString) : QJsonValue :=
  match o with
  | [] => JUndefined
  | (k, v) :: o' => if String.eqb k key then v else value o' key
  end.

Definition keys {V} (o : list (string * V)) : list string := map fst o.

Definition contains (o : QJsonObject) (key : QString) : bool :=
  bool_decide (key ∈ keys o).

(** [QJsonDocument::isEmpty]: only the null (invalid) document. *)
Definition isEmpty (doc : QJsonDocument) : bool :=
  match doc with DocNull => true | _ => false end.

(** [doc[key]]: undefined unless the document is an object. *)
Definition at_ (doc : QJsonDocument) (key : QString) : QJsonValue :=
  match doc with DocObject o => value o key | _ => JUndefined end.

Definition toString (v : QJsonValue) : QString :=
  match v with JString s => s | _ => "" end.

Definition isString (v : QJsonValue) : bool :=
  match v with JString _ => true | _ => false end.

Definition isArray (v : QJsonValue) : bool :=
  match v with JArray _ => true | _ => false end.

Definition isObject (v : QJsonValue) : bool :=
  match v with JObject _ => true | _ => false end.

Definition toArray (v : QJsonValue) : list QJsonValue :=
  match v with JArray a => a | _ => [] end.

Definition toObject (v : QJsonValue) : QJsonObject :=
  match v with JObject o => o | _ => [] end.

Definition INT_MIN : Z := -2147483648.
Definition INT_MAX : Z := 2147483647.

(** [toInt()]: the number when it is whole and fits an [int], else the
    default value 0. *)
Definition toInt (v : QJsonValue) : Z :=
  match v with
  | JDouble d =>
      let r := Qred d in
      if (Zpos (Qden r) =? 1)%Z && (INT_MIN <=? Qnum r)%Z && (Qnum r <=? INT_MAX)%Z
      then Qnum r else 0%Z
  | _ => 0%Z
  end.

Fixpoint toVariant (v : QJsonValue) : QVariant :=
  match v with
  | JUndefined => VInvalid
  | JNull => VNullptr
  | JBool b => VBool b
  | JDouble d => VDouble d
  | JString s => VString s
  | JArray a => VList (map toVariant a)
  | JObject o => VMap (map (fun kv => (fst kv, toVariant (snd kv))) o)
  end.

End Json.

Module Variant.

(** [v.toMap()] *)
Definition toMap (v : QVariant) : QVariantMap :=
  match v with VMap m => m | _ => [] end.

(** [v.canConvert<QVariantMap>()] *)
Definition canConvertMap (v : QVariant) : bool :=
  match v with VMap _ => true | _ => false end.

(** [v.value<QVariantList>()] *)
Definition toList (v : QVariant) : list QVariant :=
  match v with VList l => l | _ => [] end.

End Variant.

(** ** The two free conversion functions of abstractskillview.cpp

    Both return their result together with the warnings they print. *)

Definition warn_array_corrupted : string := "Error: Array data structure corrupted: ".
Definition warn_wrong_roles : string :=
  "WARNING: Item with a wrong set of roles encountered, some roles will be inaccessible from QML, expected: ".

Fixpoint variantListToOrderedMap_from
    (data : list QVariant) (roleNames : list string) (ordMap : list QVariantMap)
    : list QVariantMap * list string :=
  match data with
  | [] => (ordMap, [])
  | item :: rest =>
      if negb (Variant.canConvertMap item) then (ordMap, [warn_array_corrupted])
      else
        let map := Variant.toMap item in
        let '(roleNames', w) :=
          if bool_decide (roleNames = []) then (Json.keys map, [])
          else if bool_decide (roleNames ≠ Json.keys map) then (roleNames, [warn_wrong_roles])
          else (roleNames, []) in
        let '(r, ws) := variantListToOrderedMap_from rest roleNames' (ordMap ++ [map]) in
        (r, w ++ ws)
  end.

Definition variantListToOrderedMap (data : list QVariant) : list QVariantMap * list string :=
  variantListToOrderedMap_from data [] [].

Definition warn_not_array : string := "Error: Model data is not an Array".
Definition warn_array_currupted : string := "Error: Array data structure currupted: ".
Definition warn_wrong_key : string := "Error: Item with a wrong key encountered, expected: ".
Definition warn_not_string : string := "Error: item in model not a string".

Fixpoint jsonModelToStringList_from
    (key : QString) (array : list QJsonValue) (items : list string)
    : list string * list string :=
  match array with
  | [] => (items, [])
  | item :: rest =>
      if negb (Json.isObject item) then ([], [warn_array_currupted])
      else
        let obj := Json.toObject item in
        if bool_decide (length (Json.keys obj) ≠ 1%nat) || negb (Json.contains obj key)
        then ([], [warn_wrong_key])
        else
          let value := Json.value obj key in
          let w := if negb (Json.isString value) then [warn_not_string] else [] in
          let '(r, ws) := jsonModelToStringList_from key rest (items ++ [Json.toString value]) in
          (r, w ++ ws)
  end.

Definition jsonModelToStringList (key : QString) (data : QJsonValue)
    : list string * list string :=
  if negb (Json.isArray data) then ([], [warn_not_array])
  else jsonModelToStringList_from key (Json.toArray data) [].

(** ** Collaborating classes

    [abstractdelegate], [activeskillsmodel], [sessiondatamap] and
    [sessiondatamodel] are used by the two translation units through their
    public methods only. *)

(** The fields of an [AbstractDelegate] that the view sets after creating
    it, with the address of the object. *)
Record AbstractDelegate := mkDelegate {
  delegateAddr : nat;
  skillId : string;
  qmlUrl : string;
  sessionData : option nat
}.

Module ActiveSkillsModel.

Record t := mk {
  m_skills : list string;
  m_delegates : list AbstractDelegate
}.

Definition empty : t := mk [] [].

(** Modelled from the spec: [ActiveSkillsModel::rowCount] (the class is
    declared in activeskillsmodel.h, which is missing): the length of the
    ordered list of active skills. *)
Definition rowCount (m : t) : Z := Z.of_nat (length (m_skills m)).

(** Modelled from the spec: [ActiveSkillsModel::skillIndex(id).isValid()]
    (missing): the skill is "active", that is, present in the list. *)
Definition skillIndexIsValid (m : t) (id : string) : bool :=
  bool_decide (id ∈ m_skills m).

(** Modelled from the spec: [ActiveSkillsModel::data(index(row, 0))]
    (missing): the skill identifier at [row], an invalid variant (whose
    [toString] is empty) out of range. *)
Definition data (m : t) (row : Z) : string :=
  if (row <? 0)%Z then "" else nth (Z.to_nat row) (m_skills m) "".

(** Modelled from the spec: [ActiveSkillsModel::insertSkills] (missing):
    fails without mutation when [position] is outside [0, length] or
    nothing is to be inserted; identifiers already active are skipped, so
    that the list never holds a duplicate; the others are inserted in
    order at [position]. *)
Definition insertSkills (position : Z) (skillList : list string) (m : t) : t :=
  let fresh :=
    foldl (fun acc id =>
             if bool_decide (id ∈ m_skills m) || bool_decide (id ∈ acc)
             then acc else acc ++ [id]) [] skillList in
  if (position <? 0)%Z || (rowCount m <? position)%Z || bool_decide (fresh = [])
  then m
  else
    let p := Z.to_nat position in
    mk (take p (m_skills m) ++ fresh ++ drop p (m_skills m)) (m_delegates m).

(** Modelled from the spec: [ActiveSkillsModel::removeRows] (missing):
    fails when [position] is outside [0, length-1] or [count] outside
    [0, length-position]; otherwise destroys the delegates of every
    removed skill and then removes the rows. *)
Definition removeRows (position count : Z) (m : t) : t :=
  if (position <? 0)%Z || (rowCount m - 1 <? position)%Z
     || (count <? 0)%Z || (rowCount m - position <? count)%Z
  then m
  else
    let p := Z.to_nat position in
    let n := Z.to_nat count in
    let removed := take n (drop p (m_skills m)) in
    mk (take p (m_skills m) ++ drop (p + n) (m_skills m))
       (filter (fun d => skillId d ∉ removed) (m_delegates m)).

(** Modelled from the spec: [ActiveSkillsModel::moveRows] (missing): fails
    when [from] or [to] is outside [0, length-1] or [count] outside
    (0, length-from]; otherwise the block of [count] skills starting at
    [from] is taken out and put back at [to]. *)
Definition moveRows (from count to : Z) (m : t) : t :=
  if (from <? 0)%Z || (rowCount m - 1 <? from)%Z
     || (to <? 0)%Z || (rowCount m - 1 <? to)%Z
     || (count <=? 0)%Z || (rowCount m - from <? count)%Z
  then m
  else
    let f := Z.to_nat from in
    let n := Z.to_nat count in
    let block := take n (drop f (m_skills m)) in
    let rest := take f (m_skills m) ++ drop (f + n) (m_skills m) in
    mk (take (Z.to_nat to) rest ++ block ++ drop (Z.to_nat to) rest) (m_delegates m).

(** Modelled from the spec: [ActiveSkillsModel::delegateForSkill]
    (missing): the registered delegate of the pair (skill, view template),
    a null pointer when there is none. *)
Definition delegateForSkill (m : t) (id : string) (url : string) : option AbstractDelegate :=
  List.find (fun d => bool_decide (skillId d = id) && bool_decide (qmlUrl d = url))
            (m_delegates m).

(** Modelled from the spec: [ActiveSkillsModel::delegatesForSkill]
    (missing): the delegates owned by the skill; the caller passes the
    empty string for an event of the namespace "system", which is
    dispatched to all registered delegates. *)
Definition delegatesForSkill (m : t) (id : string) : list AbstractDelegate :=
  if bool_decide (id = "") then m_delegates m
  else filter (fun d => skillId d = id) (m_delegates m).

(** Modelled from the spec: [ActiveSkillsModel::insertDelegate] (missing):
    registers the delegate. *)
Definition insertDelegate (d : AbstractDelegate) (m : t) : t :=
  mk (m_skills m) (m_delegates m ++ [d]).

End ActiveSkillsModel.

Module SessionDataMap.

(** The property map of one skill ([QQmlPropertyMap]). *)
Abbreviation t := (gmap string QVariant) (only parsing).

Definition warn_unset : string := "Error: property is not set".

(** [QQmlPropertyMap::value]: an invalid variant for an absent key. *)
Definition value (m : t) (key : string) : QVariant := default VInvalid (m !! key).

(** Modelled from the spec: [SessionDataMap::insertAndNotify] (declared in
    sessiondatamap.h, missing): sets the property to the value. *)
Definition insertAndNotify (key : string) (v : QVariant) (m : t) : t := <[key := v]> m.

(** Modelled from the spec: [SessionDataMap::clearAndNotify] (missing):
    a no-op with a reported error when the property is unset, otherwise
    removes that property and leaves the others untouched. *)
Definition clearAndNotify (key : string) (m : t) : t * list string :=
  match m !! key with
  | Some _ => (delete key m, [])
  | None => (m, [warn_unset])
  end.

End SessionDataMap.

Module SessionDataModel.

(** The rows of one ordered row-collection. *)
Abbreviation t := (list (list (string * QVariant))) (only parsing).

(** Modelled from the spec: [SessionDataModel::clear] (declared in
    sessiondatamodel.h, missing): the existing rows are cleared, the
    collection object stays. *)
Definition clear (rows : t) : t := [].

(** Modelled from the spec: [SessionDataModel::insertData] (missing): the
    new rows are inserted, in order, at [position]. *)
Definition insertData (position : nat) (list : t) (rows : t) : t :=
  take position rows ++ list ++ drop position rows.

End SessionDataModel.

(** ** AbstractSkillView *)

(** What [QQmlComponent::beginCreate] leaves behind: the component's error
    list and the kind of root object it produced. *)
Inductive GuiObject := NullObject | OtherObject | DelegateObject.

Record QQmlComponent := mkComponent {
  errors : list string;
  guiObject : GuiObject
}.

Inductive Signal :=
| CurrentRequested (delegate : nat)
| Event (delegate : nat) (eventName : string) (data : list (string * QVariant)).

Module View.

Record t := mk {
  m_activeSkillsModel : ActiveSkillsModel.t;
  (** [QHash<QString, SessionDataMap *>] *)
  m_skillData : gmap string nat;
  (** the live [SessionDataMap] objects, by address *)
  maps : gmap nat (gmap string QVariant);
  (** the live [SessionDataModel] objects, by address *)
  models : gmap nat (list (list (string * QVariant)));
  (** the address the next [new] returns *)
  next : nat;
  (** objects handed to [deleteLater] *)
  deleted : list nat;
  (** what [qWarning] printed *)
  warnings : list string;
  (** what was emitted on delegates *)
  signals : list Signal
}.

Definition init : t := mk ActiveSkillsModel.empty ∅ ∅ ∅ 0 [] [] [].

Definition setActiveSkillsModel (a : ActiveSkillsModel.t) (s : t) : t :=
  mk a (m_skillData s) (maps s) (models s) (next s) (deleted s) (warnings s) (signals s).

Definition setSkillData (h : gmap string nat) (s : t) : t :=
  mk (m_activeSkillsModel s) h (maps s) (models s) (next s) (deleted s) (warnings s) (signals s).

Definition setMaps (h : gmap nat (gmap string QVariant)) (s : t) : t :=
  mk (m_activeSkillsModel s) (m_skillData s) h (models s) (next s) (deleted s) (warnings s) (signals s).

Definition setModels (h : gmap nat (list (list (string * QVariant)))) (s : t) : t :=
  mk (m_activeSkillsModel s) (m_skillData s) (maps s) h (next s) (deleted s) (warnings s) (signals s).

Definition setNext (n : nat) (s : t) : t :=
  mk (m_activeSkillsModel s) (m_skillData s) (maps s) (models s) n (deleted s) (warnings s) (signals s).

Definition deleteLater (p : nat) (s : t) : t :=
  mk (m_activeSkillsModel s) (m_skillData s) (maps s) (models s) (next s) (deleted s ++ [p])
     (warnings s) (signals s).

Definition qWarnings (ws : list string) (s : t) : t :=
  mk (m_activeSkillsModel s) (m_skillData s) (maps s) (models s) (next s) (deleted s)
     (warnings s ++ ws) (signals s).

Definition qWarning (w : string) (s : t) : t := qWarnings [w] s.

Definition emits (sigs : list Signal) (s : t) : t :=
  mk (m_activeSkillsModel s) (m_skillData s) (maps s) (models s) (next s) (deleted s)
     (warnings s) (signals s ++ sigs).

Definition emit (sig : Signal) (s : t) : t := emits [sig] s.

(** [*map] for a [SessionDataMap *map]. *)
Definition mapAt (s : t) (map : nat) : gmap string QVariant := default ∅ (maps s !! map).

(** [v.value<SessionDataModel *>()]: the pointer when the variant holds a
    [SessionDataModel], null otherwise. *)
Definition toModel (s : t) (v : QVariant) : option nat :=
  match v with
  | VObject p => if bool_decide (is_Some (models s !! p)) then Some p else None
  | _ => None
  end.

(** [m_activeSkillsModel->skillIndex(skillId).isValid()] *)
Definition isActive (s : t) (id : string) : bool :=
  ActiveSkillsModel.skillIndexIsValid (m_activeSkillsModel s) id.

Definition sessionDataForSkill (id : string) (s : t) : option nat * t :=
  match m_skillData s !! id with
  | Some map => (Some map, s)
  | None =>
      if isActive s id then
        let map := next s in
        (Some map,
         setSkillData (<[id := map]> (m_skillData s))
           (setMaps (<[map := ∅]> (maps s)) (setNext (S map) s)))
      else (None, s)
  end.

End View.

Definition type_set : string := "mycroft.session.set".
Definition type_delete : string := "mycroft.session.delete".
Definition type_show : string := "mycroft.gui.show".
Definition type_insert : string := "mycroft.session.insert".
Definition type_remove : string := "mycroft.session.remove".
Definition type_move : string := "mycroft.session.move".
Definition type_events : string := "mycroft.events.triggered".
Definition ns_active_skills : string := "mycroft.system.active_skills".

Section Handler.

Import View.

(** The QML engine: what loading the view template at a URL gives. *)
Variable engine : QUrl → QQmlComponent.

(** One turn of the loop over the properties of a [mycroft.session.set]. *)
Definition setProperty (map : nat) (s : View.t) (kv : string * QVariant) : View.t :=
  let '(key, value) := kv in
  let '(list, ws) := variantListToOrderedMap (Variant.toList value) in
  let s := qWarnings ws s in
  let dm := toModel s (SessionDataMap.value (mapAt s map) key) in
  if negb (bool_decide (list = [])) then
    match dm with
    | None =>
        let dm := next s in
        let s := setModels (<[dm := []]> (models s)) (setNext (S dm) s) in
        let s := setMaps (alter (SessionDataMap.insertAndNotify key (VObject dm)) map (maps s)) s in
        setModels (alter (SessionDataModel.insertData 0 list) dm (models s)) s
    | Some dm =>
        let s := setModels (alter SessionDataModel.clear dm (models s)) s in
        setModels (alter (SessionDataModel.insertData 0 list) dm (models s)) s
    end
  else
    let s := match dm with Some dm => deleteLater dm s | None => s end in
    setMaps (alter (SessionDataMap.insertAndNotify key value) map (maps s)) s.

Definition onSessionSet (doc : QJsonDocument) (s : View.t) : View.t :=
  let skillId := Json.toString (Json.at_ doc "namespace") in
  let data := Variant.toMap (Json.toVariant (Json.at_ doc "data")) in
  if bool_decide (skillId = "") then
    qWarning "Empty skill_id in mycroft.session.set" s
  else if negb (isActive s skillId) then
    qWarning "Invalid skill_id in mycroft.session.set:" s
  else if bool_decide (data = []) then
    qWarning "Empty dtata in mycroft.session.set" s
  else
    let '(map, s) := sessionDataForSkill skillId s in
    match map with
    | Some map => foldl (setProperty map) s data
    | None => s
    end.

Definition onSessionDelete (doc : QJsonDocument) (s : View.t) : View.t :=
  let skillId := Json.toString (Json.at_ doc "namespace") in
  let property := Json.toString (Json.at_ doc "property") in
  if bool_decide (skillId = "") then
    qWarning "No skill_id provided in mycroft.session.delete" s
  else if negb (isActive s skillId) then
    qWarning "Invalid skill_id in mycroft.session.set:" s
  else if bool_decide (property = "") then
    qWarning "No property provided in mycroft.session.delete" s
  else
    let '(map, s) := sessionDataForSkill skillId s in
    match map with
    | Some map =>
        let '(m, ws) := SessionDataMap.clearAndNotify property (mapAt s map) in
        qWarnings ws (setMaps (<[map := m]> (maps s)) s)
    | None => s
    end.

Definition onGuiShow (doc : QJsonDocument) (s : View.t) : View.t :=
  let skillId := Json.toString (Json.at_ doc "namespace") in
  let delegateUrl := Json.toString (Json.at_ doc "gui_url") in
  if bool_decide (skillId = "") then
    qWarning "Invalid mycroft.gui.show arrived with empty namespace" s
  else if bool_decide (delegateUrl = "") then
    qWarning "Invalid mycroft.gui.show arrived with empty gui_url" s
  else
    match ActiveSkillsModel.delegateForSkill (m_activeSkillsModel s) skillId delegateUrl with
    | Some delegate => emit (CurrentRequested (delegateAddr delegate)) s
    | None =>
        let delegateComponent := engine delegateUrl in
        if negb (bool_decide (errors delegateComponent = [])) then
          qWarnings (errors delegateComponent) s
        else
          match guiObject delegateComponent with
          | DelegateObject =>
              let addr := next s in
              let s := setNext (S addr) s in
              let '(map, s) := sessionDataForSkill skillId s in
              let delegate := mkDelegate addr skillId delegateUrl map in
              let s := setActiveSkillsModel
                         (ActiveSkillsModel.insertDelegate delegate (m_activeSkillsModel s)) s in
              emit (CurrentRequested addr) s
          | _ =>
              (* [delegate] is null here: the [deleteLater] that follows
                 the warning has no receiver *)
              qWarning "ERROR: QML gui not a Mycroft.AbstractDelegate instance" s
          end
    end.

Definition onSessionInsert (doc : QJsonDocument) (s : View.t) : View.t :=
  let position := Json.toInt (Json.at_ doc "position") in
  if (position <? 0)%Z || (ActiveSkillsModel.rowCount (m_activeSkillsModel s) <? position)%Z then
    qWarning "Invalid position in mycroft.session.insert" s
  else
    let '(skillList, ws) := jsonModelToStringList "skill_id" (Json.at_ doc "data") in
    let s := qWarnings ws s in
    if bool_decide (skillList = []) then
      qWarning "Error: no valid skills received in mycroft.session.insert" s
    else
      setActiveSkillsModel
        (ActiveSkillsModel.insertSkills position skillList (m_activeSkillsModel s)) s.

(** One turn of the loop that drops the session data of the skills about
    to be removed. *)
Definition eraseSkillData (position : Z) (s : View.t) (i : nat) : View.t :=
  let skillId := ActiveSkillsModel.data (m_activeSkillsModel s) (position + Z.of_nat i) in
  match m_skillData s !! skillId with
  | Some map => setSkillData (delete skillId (m_skillData s)) (deleteLater map s)
  | None => s
  end.

Definition onSessionRemove (doc : QJsonDocument) (s : View.t) : View.t :=
  let position := Json.toInt (Json.at_ doc "position") in
  let itemsNumber := Json.toInt (Json.at_ doc "items_number") in
  if (position <? 0)%Z || (ActiveSkillsModel.rowCount (m_activeSkillsModel s) - 1 <? position)%Z then
    qWarning "Invalid position" s
  else if (itemsNumber <? 0)%Z
          || (ActiveSkillsModel.rowCount (m_activeSkillsModel s) - position - 1 <? itemsNumber)%Z then
    qWarning "Invalid items_number" s
  else
    let s := foldl (eraseSkillData position) s (seq 0 (Z.to_nat itemsNumber)) in
    setActiveSkillsModel
      (ActiveSkillsModel.removeRows position itemsNumber (m_activeSkillsModel s)) s.

Definition onSessionMove (doc : QJsonDocument) (s : View.t) : View.t :=
  let from := Json.toInt (Json.at_ doc "from") in
  let to := Json.toInt (Json.at_ doc "to") in
  let itemsNumber := Json.toInt (Json.at_ doc "items_number") in
  if (from <? 0)%Z || (ActiveSkillsModel.rowCount (m_activeSkillsModel s) - 1 <? from)%Z then
    qWarning "Invalid from position" s
  else if (to <? 0)%Z || (ActiveSkillsModel.rowCount (m_activeSkillsModel s) - 1 <? to)%Z then
    qWarning "Invalid to position" s
  else if (itemsNumber <=? 0)%Z
          || (ActiveSkillsModel.rowCount (m_activeSkillsModel s) - from <? itemsNumber)%Z then
    qWarning "Invalid items_number" s
  else
    setActiveSkillsModel
      (ActiveSkillsModel.moveRows from itemsNumber to (m_activeSkillsModel s)) s.

Definition onEventsTriggered (doc : QJsonDocument) (s : View.t) : View.t :=
  let skillOrSystem := Json.toString (Json.at_ doc "namespace") in
  if bool_decide (skillOrSystem = "") then
    qWarning "No namespace provided for mycroft.events.triggered" s
  else if bool_decide (skillOrSystem ≠ "system") && negb (isActive s skillOrSystem) then
    qWarning "Invalid skill id passed as namespace for mycroft.events.triggered:" s
  else
    let eventName := Json.toString (Json.at_ doc "event_name") in
    if bool_decide (eventName = "") then
      qWarning "No namespace provided for mycroft.events.triggered" s
    else
      let data := Variant.toMap (Json.toVariant (Json.at_ doc "data")) in
      let delegates :=
        ActiveSkillsModel.delegatesForSkill (m_activeSkillsModel s)
          (if bool_decide (skillOrSystem = "system") then "" else skillOrSystem) in
      emits (map (fun delegate => Event (delegateAddr delegate) eventName data) delegates) s.

(** The slot connected to [QWebSocket::textMessageReceived]; [doc] is the
    frame as parsed by [QJsonDocument::fromJson]. *)
Definition onGuiSocketMessageReceived (doc : QJsonDocument) (s : View.t) : View.t :=
  if Json.isEmpty doc then
    qWarning "Empty or invalid JSON message arrived on the gui socket:" s
  else
    let type := Json.toString (Json.at_ doc "type") in
    if bool_decide (type = "") then
      qWarning "Empty type in the JSON message on the gui socket" s
    else if bool_decide (type = type_set) then onSessionSet doc s
    else if bool_decide (type = type_delete) then onSessionDelete doc s
    else if bool_decide (type = type_show) then onGuiShow doc s
    else if bool_decide (type = type_insert)
            && bool_decide (Json.toString (Json.at_ doc "namespace") = ns_active_skills)
    then onSessionInsert doc s
    else if bool_decide (type = type_remove)
            && bool_decide (Json.toString (Json.at_ doc "namespace") = ns_active_skills)
    then onSessionRemove doc s
    else if bool_decide (type = type_move) then onSessionMove doc s
    else if bool_decide (type = type_events) then onEventsTriggered doc s
    else s.

End Handler.

(** ** MycroftController: connection status and the utterance path *)

Module Controller.

(** [QAbstractSocket::SocketState] *)
Inductive SocketState :=
| UnconnectedState | HostLookupState | ConnectingState | ConnectedState
| BoundState | ListeningState | ClosingState.

#[global] Instance SocketState_eq_dec : EqDecision SocketState.
Proof. solve_decision. Defined.

(** [MycroftController::Status] *)
Inductive Status := Connecting | Open | Closing | Closed.

Record t := mk {
  (** [m_webSocket.state()] *)
  socketState : SocketState;
  (** [m_reconnectTimer.isActive()] *)
  reconnectTimerActive : bool;
  (** the text frames handed to [m_webSocket.sendTextMessage], each
      represented by the JSON document it carries *)
  sent : list QJsonDocument;
  (** what [qWarning] printed *)
  warnings : list string;
  (** how often [socketStatusChanged] was emitted *)
  statusChanged : nat
}.

Definition init : t := mk UnconnectedState false [] [] 0.

(** [start] also launches the core loader, a detached process that is not
    part of the controller's state. *)
Definition start (c : t) : t :=
  mk (socketState c) true (sent c) (warnings c) (S (statusChanged c)).

Definition onConnected (c : t) : t :=
  mk (socketState c) false (sent c) (warnings c) (S (statusChanged c)).

(** The socket moved to [state]; [onStatusChanged] is the slot connected
    to [QWebSocket::stateChanged]. *)
Definition onStatusChanged (state : SocketState) (c : t) : t :=
  mk state (reconnectTimerActive c) (sent c) (warnings c) (S (statusChanged c)).

Definition status (c : t) : Status :=
  if reconnectTimerActive c then Connecting
  else
    match socketState c with
    | ConnectingState | BoundState | HostLookupState => Connecting
    | UnconnectedState => Closed
    | ConnectedState => Open
    | ClosingState => Closing
    | _ => Connecting
    end.

Definition sendRequest (json : QJsonDocument) (c : t) : t :=
  if negb (bool_decide (socketState c = ConnectedState)) then
    mk (socketState c) (reconnectTimerActive c) (sent c)
       (warnings c ++ ["mycroft connection not open!"]) (statusChanged c)
  else
    mk (socketState c) (reconnectTimerActive c) (sent c ++ [json])
       (warnings c) (statusChanged c).

(** [root[key] = v] on a [QJsonObject], whose keys are kept sorted. *)
Fixpoint insert (key : string) (v : QJsonValue) (o : list (string * QJsonValue))
    : list (string * QJsonValue) :=
  match o with
  | [] => [(key, v)]
  | (k, w) :: o' =>
      if String.eqb key k then (key, v) :: o'
      else if String.ltb key k then (key, v) :: (k, w) :: o'
      else (k, w) :: insert key v o'
  end.

Definition sendText (message : string) (c : t) : t :=
  let root := [] in
  let root := insert "type" (JString "recognizer_loop:utterance") root in
  let root := insert "data" (JObject (insert "utterances" (JArray [JString message]) [])) root in
  sendRequest (DocObject root) c.

(** What can happen to a controller: calls of its public methods and the
    signals of its socket and timer. *)
Inductive Action :=
| Start
| StateChanged (state : SocketState)
| SocketConnected
| SendText (message : string).

Definition step (c : t) (a : Action) : t :=
  match a with
  | Start => start c
  | StateChanged state => onStatusChanged state c
  | SocketConnected => onConnected c
  | SendText message => sendText message c
  end.

Definition run (actions : list Action) : t := foldl step init actions.

(** The message [{type: "recognizer_loop:utterance", data: {utterances:
    [text]}}]. *)
Definition utterance (text : string) : QJsonDocument :=
  DocObject [("data", JObject [("utterances", JArray [JString text])]);
             ("type", JString "recognizer_loop:utterance")].

End Controller.

(** ** MycroftController: the classification of incoming frames *)

Module Assistant.

(** The signals [onTextMessageReceived] emits. *)
Inductive Signal :=
| IsListeningChanged
| NotUnderstood
| IsSpeakingChanged
| CurrentSkillChanged
| FallbackTextRecieved (skill : string) (data : list (string * QVariant))
| SkillDataRecieved (data : list (string * QVariant)).

(** The members of the controller that [onTextMessageReceived] reads and
    writes, with the trace of the signals it emitted. *)
Record t := mk {
  m_isListening : bool;
  m_isSpeaking : bool;
  m_currentSkill : string;
  emitted : list Signal
}.

Definition emit (sig : Signal) (c : t) : t :=
  mk (m_isListening c) (m_isSpeaking c) (m_currentSkill c) (emitted c ++ [sig]).

Definition setListening (b : bool) (c : t) : t :=
  mk b (m_isSpeaking c) (m_currentSkill c) (emitted c).

Definition setSpeaking (b : bool) (c : t) : t :=
  mk (m_isListening c) b (m_currentSkill c) (emitted c).

Definition setCurrentSkill (id : string) (c : t) : t :=
  mk (m_isListening c) (m_isSpeaking c) id (emitted c).

(** [v[key]] on a [QJsonValue]: undefined unless the value is an object. *)
Definition valueAt (v : QJsonValue) (key : string) : QJsonValue :=
  match v with JObject o => Json.value o key | _ => JUndefined end.

Definition type_intent_failure : string := "intent_failure".
Definition type_audio_output_start : string := "recognizer_loop:audio_output_start".
Definition type_audio_output_end : string := "recognizer_loop:audio_output_end".
Definition type_record_begin : string := "recognizer_loop:record_begin".
Definition type_record_end : string := "recognizer_loop:record_end".
Definition type_unknown : string := "mycroft.speech.recognition.unknown".
Definition type_handler_start : string := "mycroft.skill.handler.start".
Definition type_handler_complete : string := "mycroft.skill.handler.complete".
Definition type_speak : string := "speak".
Definition type_metadata : string := "metadata".

(** The slot connected to [QWebSocket::textMessageReceived]; [doc] is the
    frame as parsed by [QJsonDocument::fromJson]. *)
Definition onTextMessageReceived (doc : QJsonDocument) (c : t) : t :=
  let type := Json.toString (Json.at_ doc "type") in
  if String.prefix "enclosure" type || String.prefix "mycroft-date" type then c
  else if bool_decide (type = type_intent_failure) then
    emit NotUnderstood (emit IsListeningChanged (setListening false c))
  else if bool_decide (type = type_audio_output_start) then
    emit IsSpeakingChanged (setSpeaking true c)
  else if bool_decide (type = type_audio_output_end) then
    emit IsSpeakingChanged (setSpeaking false c)
  else if bool_decide (type = type_record_begin) then
    emit IsListeningChanged (setListening true c)
  else if bool_decide (type = type_record_end) then
    emit IsListeningChanged (setListening false c)
  else
    let c := if bool_decide (type = type_unknown) then emit NotUnderstood c else c in
    let c :=
      if bool_decide (type = type_handler_start) then
        emit CurrentSkillChanged
          (setCurrentSkill (Json.toString (valueAt (Json.at_ doc "data") "name")) c)
      else c in
    let c :=
      if bool_decide (type = type_handler_complete) then
        emit CurrentSkillChanged (setCurrentSkill "" c)
      else c in
    let c :=
      if bool_decide (type = type_speak) then
        emit (FallbackTextRecieved (m_currentSkill c)
                (Variant.toMap (Json.toVariant (Json.at_ doc "data")))) c
      else c in
    if bool_decide (type = type_metadata) then
      emit (SkillDataRecieved (Variant.toMap (Json.toVariant (Json.at_ doc "data")))) c
    else c.

(** The frames of a connection, handled in the order they arrive. *)
Definition run (c : t) (frames : list QJsonDocument) : t :=
  foldl (λ c doc, onTextMessageReceived doc c) c frames.

(** The types that set or clear [m_isListening]. *)
Definition listeningTypes : list string :=
  [type_intent_failure; type_record_begin; type_record_end].

(** The types that set or clear [m_isSpeaking]. *)
Definition speakingTypes : list string :=
  [type_audio_output_start; type_audio_output_end].

(** The types that set or clear [m_currentSkill]. *)
Definition skillTypes : list string := [type_handler_start; type_handler_complete].

(** All the types the slot reacts to. *)
Definition recognisedTypes : list string :=
  [type_intent_failure; type_audio_output_start; type_audio_output_end;
   type_record_begin; type_record_end; type_unknown; type_handler_start;
   type_handler_complete; type_speak; type_metadata].

End Assistant.

(** ** Auxiliary notions for the properties *)

(** The entries of a list up to the first one that is not an object. *)
Fixpoint leadingObjects (data : list QVariant) : list QVariant :=
  match data with
  | [] => []
  | item :: rest => if Variant.canConvertMap item then item :: leadingObjects rest else []
  end.

(** The types the GUI slot reacts to whatever the namespace. *)
Definition plainTypes : list string := [type_set; type_delete; type_show; type_move; type_events].

(** [holds s map key p]: the property [key] of the session data object at
    [map] is the row-collection model at address [p]. *)
Definition holds (s : View.t) (map : nat) (key : string) (p : nat) : Prop :=
  ∃ m, View.maps s !! map = Some m ∧ m !! key = Some (VObject p).

(** Every [QObject] a property holds is a live row-collection model that
    was allocated by [new], and no two properties hold the same model. *)
Record owns (s : View.t) : Prop := mkOwns {
  owns_allocated : ∀ map key p, holds s map key p → (p < View.next s)%nat;
  owns_live : ∀ map key p, holds s map key p → is_Some (View.models s !! p);
  owns_unique : ∀ map key map' key' p,
    holds s map key p → holds s map' key' p → map = map' ∧ key = key'
}.

(** The number of [sendText] calls among the actions. *)
Fixpoint sendTextCount (actions : list Controller.Action) : nat :=
  match actions with
  | [] => 0
  | Controller.SendText _ :: rest => S (sendTextCount rest)
  | _ :: rest => sendTextCount rest
  end.

(** ** Well-formed views

    The session store of a skill is a live object, [new] returns an address
    that is not in use, and no pair (skill, view template) has two
    delegates. *)

Definition delegateKey (d : AbstractDelegate) : string * string := (skillId d, qmlUrl d).

Record wf (s : View.t) : Prop := mkWf {
  wf_live : ∀ id map, View.m_skillData s !! id = Some map → is_Some (View.maps s !! map);
  wf_fresh_map : ∀ p, (View.next s ≤ p)%nat → View.maps s !! p = None;
  wf_fresh_model : ∀ p, (View.next s ≤ p)%nat → View.models s !! p = None;
  wf_delegates : NoDup (delegateKey <$> ActiveSkillsModel.m_delegates (View.m_activeSkillsModel s))
}.

(** The delegates registered for a pair (skill, view template). *)
Definition registered (s : View.t) (id url : string) : list AbstractDelegate :=
  filter (λ d, delegateKey d = (id, url))
         (ActiveSkillsModel.m_delegates (View.m_activeSkillsModel s)).

(** The state a property of a skill is in when it still holds the
    row-collection it held before, with the same rows, not handed to
    [deleteLater]. *)
Definition rowsPreserved (s s' : View.t) (id key : string) : Prop :=
  ∃ map dm rows,
    View.m_skillData s !! id = Some map ∧
    View.mapAt s map !! key = Some (VObject dm) ∧
    View.models s !! dm = Some rows ∧
    View.mapAt s' map !! key = Some (VObject dm) ∧
    View.models s' !! dm = Some rows ∧
    dm ∉ View.deleted s'.

(** ** Concrete sessions

    States are built by running frames through the slot from the initial
    view, so that every state below is one the view can be in. *)

Module Scenario.

(** An engine that loads every view template. *)
Definition loads : string → QQmlComponent := fun _ => mkComponent [] DelegateObject.

(** An engine whose templates fail to load. *)
Definition fails : string → QQmlComponent :=
  fun _ => mkComponent ["file not found"] NullObject.

Definition number (z : Z) : QJsonValue := JDouble (inject_Z z).

Definition skill (id : string) : QJsonValue := JObject [("skill_id", JString id)].

Definition insertMsg (position : Z) (ids : list string) : QJsonDocument :=
  DocObject [("data", JArray (map skill ids));
             ("namespace", JString ns_active_skills);
             ("position", number position);
             ("type", JString type_insert)].

Definition removeMsg (position itemsNumber : Z) : QJsonDocument :=
  DocObject [("items_number", number itemsNumber);
             ("namespace", JString ns_active_skills);
             ("position", number position);
             ("type", JString type_remove)].

Definition setMsg (id : string) (data : list (string * QJsonValue)) : QJsonDocument :=
  DocObject [("data", JObject data); ("namespace", JString id); ("type", JString type_set)].

Definition deleteMsg (id property : string) : QJsonDocument :=
  DocObject [("namespace", JString id); ("property", JString property);
             ("type", JString type_delete)].

Definition showMsg (id url : string) : QJsonDocument :=
  DocObject [("gui_url", JString url); ("namespace", JString id); ("type", JString type_show)].

Definition eventMsg (ns name : string) : QJsonDocument :=
  DocObject [("data", JObject []); ("event_name", JString name); ("namespace", JString ns);
             ("type", JString type_events)].

(** An insert of "clock" followed by a bare string instead of an object. *)
Definition badInsert : QJsonDocument :=
  DocObject [("data", JArray [skill "clock"; JString "alarm"]);
             ("namespace", JString ns_active_skills);
             ("position", number 1);
             ("type", JString type_insert)].

Definition run (engine : string → QQmlComponent) (frames : list QJsonDocument) : View.t :=
  foldl (fun s doc => onGuiSocketMessageReceived engine doc s) View.init frames.

(** Three active skills. *)
Definition threeSkills : View.t := run loads [insertMsg 0 ["timer"; "weather"; "news"]].

(** Skill "weather" with a two-row forecast. *)
Definition forecast : View.t :=
  run loads [insertMsg 0 ["timer"; "weather"; "news"];
             setMsg "weather" [("forecast", JArray [JObject [("day", JString "Mon")];
                                                    JObject [("day", JString "Tue")]])]].

End Scenario.

Module SetScenario.

(** An update for a skill that is not active. *)
Definition radio : QJsonDocument := Scenario.setMsg "radio" [("station", JString "fm")].

(** The forecast is replaced by an empty array. *)
Definition emptyForecast : QJsonDocument := Scenario.setMsg "weather" [("forecast", JArray [])].

(** The forecast is replaced by an array whose only entry is a string. *)
Definition rain : QJsonDocument :=
  Scenario.setMsg "weather" [("forecast", JArray [JString "rain"])].

(** The forecast is replaced by an array with a row followed by a string. *)
Definition wedRain : QJsonDocument :=
  Scenario.setMsg "weather"
    [("forecast", JArray [JObject [("day", JString "Wed")]; JString "rain"])].

End SetScenario.

Module DeleteScenario.

(** A delete for "weather" while it is active and has no session data. *)
Definition early : QJsonDocument := Scenario.deleteMsg "weather" "forecast".

End DeleteScenario.

Module RemoveScenario.

(** Three skills; "weather" has a forecast and a delegate on screen. *)
Definition shown : View.t :=
  Scenario.run Scenario.loads
    [Scenario.insertMsg 0 ["timer"; "weather"; "news"];
     Scenario.setMsg "weather" [("forecast", JArray [JObject [("day", JString "Mon")]])];
     Scenario.showMsg "weather" "file:///weather/forecast.qml"].

End RemoveScenario.

Module ShowScenario.

Definition weather : QJsonDocument := Scenario.showMsg "weather" "file:///weather/forecast.qml".

End ShowScenario.

Module EventScenario.

(** "weather" and "timer" each have a delegate on screen. *)
Definition twoDelegates : View.t :=
  Scenario.run Scenario.loads
    [Scenario.insertMsg 0 ["timer"; "weather"; "news"];
     Scenario.showMsg "weather" "file:///weather/forecast.qml";
     Scenario.showMsg "timer" "file:///timer/clock.qml"].

End EventScenario.

Module UtteranceScenario.

(** The controller is started, connects, and [start] is called again. *)
Definition restarted : Controller.t :=
  Controller.run [Controller.Start;
                  Controller.StateChanged Controller.ConnectingState;
                  Controller.StateChanged Controller.ConnectedState;
                  Controller.SocketConnected;
                  Controller.Start].

End UtteranceScenario.

Module ExtraScenario.

(** A frame of a type the GUI slot does not know. *)
Definition listFrame : QJsonDocument :=
  DocObject [("namespace", JString "weather"); ("type", JString "mycroft.session.list")].

(** An insert addressed to another namespace than the list of skills. *)
Definition foreignInsert : QJsonDocument :=
  DocObject [("data", JArray [Scenario.skill "clock"]);
             ("namespace", JString "weather");
             ("position", Scenario.number 0);
             ("type", JString type_insert)].

(** A frame without a type. *)
Definition noType : QJsonDocument := DocObject [("namespace", JString "weather")].

Definition moveMsg (from to itemsNumber : Z) : QJsonDocument :=
  DocObject [("from", Scenario.number from);
             ("items_number", Scenario.number itemsNumber);
             ("to", Scenario.number to);
             ("type", JString type_move)].

(** A frame of the primary connection with nothing but a type. *)
Definition frame (type : string) : QJsonDocument := DocObject [("type", JString type)].

(** The start of the handler of a skill. *)
Definition handlerStart (name : string) : QJsonDocument :=
  DocObject [("data", JObject [("name", JString name)]);
             ("type", JString Assistant.type_handler_start)].

(** Text to speak. *)
Definition speak (utterance : string) : QJsonDocument :=
  DocObject [("data", JObject [("utterance", JString utterance)]);
             ("type", JString Assistant.type_speak)].

(** An assistant that neither listens nor speaks. *)
Definition quiet : Assistant.t := Assistant.mk false false "" [].

(** A show for a skill that is not active. *)
Definition showRadio : QJsonDocument := Scenario.showMsg "radio" "file:///radio/tuner.qml".

(** The forecast is replaced by a single row. *)
Definition wednesday : QJsonDocument :=
  Scenario.setMsg "weather" [("forecast", JArray [JObject [("day", JString "Wed")]])].

End ExtraScenario.

(** * Properties *)

(** ** The conversion functions *)

Lemma variantListToOrderedMap_from_nonempty data roleNames ordMap :
  ordMap ≠ [] → (variantListToOrderedMap_from data roleNames ordMap).1 ≠ [].
Proof.
  revert roleNames ordMap.
  induction data as [|item rest IH]; intros roleNames ordMap Hne; simpl; [done|].
  destruct (Variant.canConvertMap item); simpl; [|done].
  destruct (if bool_decide (roleNames = []) then _ else _) as [rn w].
  specialize (IH rn (ordMap ++ [Variant.toMap item])).
  destruct (variantListToOrderedMap_from rest rn _) as [r ws]; simpl in *.
  apply IH. by destruct ordMap.
Qed.

(** The conversion gives no row exactly when the list is empty or its first
    entry is not an object. *)
Lemma variantListToOrderedMap_nil data :
  (variantListToOrderedMap data).1 = [] ↔
  match data with [] => True | item :: _ => Variant.canConvertMap item = false end.
Proof.
  unfold variantListToOrderedMap.
  destruct data as [|item rest]; simpl; [done|].
  destruct (Variant.canConvertMap item) eqn:Hc; simpl; [|done].
  destruct (variantListToOrderedMap_from rest _ _) as [r ws] eqn:Hr; simpl.
  split; [|done]. intros ->.
  pose proof (variantListToOrderedMap_from_nonempty rest (Json.keys (Variant.toMap item))
                [Variant.toMap item]) as H.
  rewrite Hr in H. simpl in H. exfalso. by apply H.
Qed.

(** A list with an entry that is not an object is reported. *)
Lemma variantListToOrderedMap_from_warns data roleNames ordMap :
  (∃ item, item ∈ data ∧ Variant.canConvertMap item = false) →
  warn_array_corrupted ∈ (variantListToOrderedMap_from data roleNames ordMap).2.
Proof.
  revert roleNames ordMap.
  induction data as [|item rest IH]; intros roleNames ordMap [bad [Hin Hbad]].
  - by apply elem_of_nil in Hin.
  - simpl. destruct (Variant.canConvertMap item) eqn:Hc; simpl.
    + destruct (if bool_decide (roleNames = []) then _ else _) as [rn w].
      apply elem_of_cons in Hin as [->|Hin]; [congruence|].
      specialize (IH rn (ordMap ++ [Variant.toMap item]) (ex_intro _ bad (conj Hin Hbad))).
      destruct (variantListToOrderedMap_from rest rn _) as [r ws]; simpl in *.
      apply elem_of_app. by right.
    + apply list_elem_of_singleton. done.
Qed.

(** An array with an entry that is not an object whose only key is [key]
    converts to no identifier at all, whatever was collected before it. *)
Lemma jsonModelToStringList_from_bad key array items :
  (∃ item, item ∈ array ∧ ¬ ∃ o, item = JObject o ∧ Json.keys o = [key]) →
  (jsonModelToStringList_from key array items).1 = [] ∧
  (jsonModelToStringList_from key array items).2 ≠ [].
Proof.
  revert items.
  induction array as [|item rest IH]; intros items [bad [Hin Hbad]].
  - by apply elem_of_nil in Hin.
  - simpl. destruct (Json.isObject item) eqn:Hobj; simpl; [|done].
    destruct item as [| | | | |?|o]; try discriminate. simpl.
    destruct (bool_decide (length (Json.keys o) ≠ 1%nat) || negb (Json.contains o key)) eqn:Hk;
      [done|].
    apply orb_false_iff in Hk as [Hlen Hcont].
    apply bool_decide_eq_false in Hlen. apply negb_false_iff, bool_decide_eq_true in Hcont.
    assert (Json.keys o = [key]) as Hkeys.
    { destruct (Json.keys o) as [|k [|? ?]]; simpl in *; try (exfalso; apply Hlen; done).
      apply list_elem_of_singleton in Hcont. by subst. }
    apply elem_of_cons in Hin as [->|Hin]; [exfalso; apply Hbad; eauto|].
    specialize (IH (items ++ [Json.toString (Json.value o key)]) (ex_intro _ bad (conj Hin Hbad))).
    destruct (jsonModelToStringList_from key rest _) as [r ws]; simpl in *.
    destruct IH as [-> Hws]. split; [done|].
    intros Happ. apply app_eq_nil in Happ as [_ ->]. done.
Qed.

(** ** Dispatch on the message type *)

Lemma typed_doc_not_empty doc :
  Json.toString (Json.at_ doc "type") ≠ "" → Json.isEmpty doc = false.
Proof. destruct doc; simpl; done. Qed.

Ltac dispatch H :=
  unfold onGuiSocketMessageReceived;
  rewrite typed_doc_not_empty by (rewrite H; discriminate);
  rewrite H; simpl.

Section Dispatch.

Variable engine : string → QQmlComponent.
Variables (doc : QJsonDocument) (s : View.t).

Local Abbreviation type := (Json.toString (Json.at_ doc "type")).
Local Abbreviation namespace := (Json.toString (Json.at_ doc "namespace")).

Lemma dispatch_set :
  type = type_set → onGuiSocketMessageReceived engine doc s = onSessionSet doc s.
Proof. intros H. by dispatch H. Qed.

Lemma dispatch_delete :
  type = type_delete → onGuiSocketMessageReceived engine doc s = onSessionDelete doc s.
Proof. intros H. by dispatch H. Qed.

Lemma dispatch_show :
  type = type_show → onGuiSocketMessageReceived engine doc s = onGuiShow engine doc s.
Proof. intros H. by dispatch H. Qed.

Lemma dispatch_insert :
  type = type_insert → namespace = ns_active_skills →
  onGuiSocketMessageReceived engine doc s = onSessionInsert doc s.
Proof. intros H Hns. dispatch H. by rewrite Hns. Qed.

Lemma dispatch_remove :
  type = type_remove → namespace = ns_active_skills →
  onGuiSocketMessageReceived engine doc s = onSessionRemove doc s.
Proof. intros H Hns. dispatch H. by rewrite Hns. Qed.

Lemma dispatch_events :
  type = type_events → onGuiSocketMessageReceived engine doc s = onEventsTriggered doc s.
Proof. intros H. by dispatch H. Qed.

End Dispatch.

Example threeSkills_active :
  ActiveSkillsModel.m_skills (View.m_activeSkillsModel Scenario.threeSkills)
  = ["timer"; "weather"; "news"].
Proof. reflexivity. Qed.

(** The scenario of the specification: a [mycroft.session.set] with a list of
    two objects gives an ordered two-row collection. *)
Example forecast_rows :
  ∃ map dm,
    View.m_skillData Scenario.forecast !! "weather" = Some map ∧
    View.mapAt Scenario.forecast map !! "forecast" = Some (VObject dm) ∧
    View.models Scenario.forecast !! dm =
      Some [[("day", VString "Mon")]; [("day", VString "Tue")]].
Proof. exists 0%nat, 1%nat. vm_compute. done. Qed.

(** ** The list of active skills: insert and remove *)

Section ActiveSkills.

Variable engine : string → QQmlComponent.
Variables (doc : QJsonDocument) (s : View.t).

Local Abbreviation type := (Json.toString (Json.at_ doc "type")).
Local Abbreviation namespace := (Json.toString (Json.at_ doc "namespace")).
Local Abbreviation position := (Json.toInt (Json.at_ doc "position")).
Local Abbreviation itemsNumber := (Json.toInt (Json.at_ doc "items_number")).
Local Abbreviation rowCount := (ActiveSkillsModel.rowCount (View.m_activeSkillsModel s)).

(** The guard of [mycroft.session.remove], as the code has it: the request
    is turned down, with nothing but a warning, exactly when [position] is
    outside [0, L-1] or the count is outside [0, L-position-1]. *)
Lemma remove_rejected_iff :
  type = type_remove → namespace = ns_active_skills →
  (∃ w, onGuiSocketMessageReceived engine doc s = View.qWarning w s) ↔
  ¬ (0 ≤ position ≤ rowCount - 1 ∧ 0 ≤ itemsNumber ≤ rowCount - position - 1)%Z.
Proof.
  intros Ht Hns. rewrite dispatch_remove by done. unfold onSessionRemove.
  destruct ((position <? 0)%Z || _) eqn:Hp.
  { split; [|by eauto]. intros _ [Hpos _].
    apply orb_true_iff in Hp as [Hp|Hp]; apply Z.ltb_lt in Hp; lia. }
  destruct ((itemsNumber <? 0)%Z || _) eqn:Hn.
  { split; [|by eauto]. intros _ [_ Hcnt].
    apply orb_true_iff in Hn as [Hn|Hn]; apply Z.ltb_lt in Hn; lia. }
  apply orb_false_iff in Hp as [Hp1 Hp2]. apply orb_false_iff in Hn as [Hn1 Hn2].
  apply Z.ltb_ge in Hp1, Hp2, Hn1, Hn2.
  split; [|intros H; exfalso; apply H; lia].
  intros [w Hw]. exfalso.
  apply (f_equal View.warnings) in Hw. simpl in Hw.
  assert (∀ rows t, View.warnings (foldl (eraseSkillData position) t rows) = View.warnings t)
    as Hfold.
  { induction rows as [|i rows IH]; intros t; simpl; [done|].
    rewrite IH. unfold eraseSkillData. by destruct (_ !! _). }
  rewrite Hfold in Hw.
  apply (f_equal length) in Hw. rewrite length_app in Hw. simpl in Hw. lia.
Qed.

(** C9. A [mycroft.session.insert] whose data array has an entry that is not
    an object with the single key "skill_id" is dropped as a whole: the
    state is left as it was, skills listed before the offending entry
    included, and at least one warning is printed. *)
Theorem insert_all_or_nothing (array : list QJsonValue) :
  type = type_insert → namespace = ns_active_skills →
  Json.at_ doc "data" = JArray array →
  (∃ item, item ∈ array ∧ ¬ ∃ o, item = JObject o ∧ Json.keys o = ["skill_id"]) →
  ∃ ws, ws ≠ [] ∧ onGuiSocketMessageReceived engine doc s = View.qWarnings ws s.
Proof.
  intros Ht Hns Hdata Hbad. rewrite dispatch_insert by done. unfold onSessionInsert.
  destruct ((position <? 0)%Z || _); [by eexists [_]|].
  unfold jsonModelToStringList. rewrite Hdata. simpl.
  destruct (jsonModelToStringList_from_bad "skill_id" array [] Hbad) as [Hnil Hws].
  destruct (jsonModelToStringList_from "skill_id" array []) as [skillList ws]; simpl in *.
  subst skillList. simpl.
  exists (ws ++ ["Error: no valid skills received in mycroft.session.insert"]).
  split; [by destruct ws|].
  unfold View.qWarning, View.qWarnings. simpl. by rewrite <- app_assoc.
Qed.

End ActiveSkills.

(** An insert with a good first entry and a bad second one is dropped. *)
Lemma insert_all_or_nothing_witness :
  ∃ ws, ws ≠ [] ∧
    onGuiSocketMessageReceived Scenario.loads Scenario.badInsert Scenario.threeSkills
    = View.qWarnings ws Scenario.threeSkills.
Proof.
  apply (insert_all_or_nothing Scenario.loads Scenario.badInsert Scenario.threeSkills
           [Scenario.skill "clock"; JString "alarm"]).
  - reflexivity.
  - reflexivity.
  - reflexivity.
  - exists (JString "alarm"). split.
    + apply elem_of_cons. right. apply elem_of_cons. by left.
    + intros [o [Ho _]]. discriminate Ho.
Defined.

(** C1. With three active skills, a remove of 2 skills from position 1, a
    count equal to L - position, is accepted by the specification; the
    code turns it down with "Invalid items_number" and removes nothing. *)
Theorem remove_up_to_end_rejected :
  onGuiSocketMessageReceived Scenario.loads (Scenario.removeMsg 1 2) Scenario.threeSkills
  = View.qWarning "Invalid items_number" Scenario.threeSkills.
Proof. vm_compute. reflexivity. Qed.

(** The scenario of the specification: with three active skills a remove of
    5 skills from position 1 is turned down, and one of a single skill is
    carried out. *)
Example remove_scenario :
  onGuiSocketMessageReceived Scenario.loads (Scenario.removeMsg 1 5) Scenario.threeSkills
  = View.qWarning "Invalid items_number" Scenario.threeSkills ∧
  ActiveSkillsModel.m_skills
    (View.m_activeSkillsModel
       (onGuiSocketMessageReceived Scenario.loads (Scenario.removeMsg 1 1) Scenario.threeSkills))
  = ["timer"; "news"].
Proof. split; vm_compute; reflexivity. Qed.

(** ** Well-formed views *)

Lemma wf_init : wf View.init.
Proof. split; simpl; intros; try done. constructor. Qed.

Lemma wf_qWarnings ws s : wf s → wf (View.qWarnings ws s).
Proof. intros [? ? ? ?]. by split. Qed.

Lemma wf_emits sigs s : wf s → wf (View.emits sigs s).
Proof. intros [? ? ? ?]. by split. Qed.

Lemma wf_deleteLater p s : wf s → wf (View.deleteLater p s).
Proof. intros [? ? ? ?]. by split. Qed.

Lemma sessionDataForSkill_wf id s :
  wf s → wf (View.sessionDataForSkill id s).2.
Proof.
  intros Hwf. unfold View.sessionDataForSkill.
  destruct (View.m_skillData s !! id) as [map|] eqn:Hid; [done|].
  destruct (View.isActive s id); [|done].
  destruct Hwf as [Hlive Hmap Hmodel Hdel]. split; simpl.
  - intros id' map'. destruct (decide (id = id')) as [->|Hne].
    + rewrite lookup_insert_eq. intros [= <-]. rewrite lookup_insert_eq. eauto.
    + rewrite lookup_insert_ne by done. intros H.
      destruct (decide (View.next s = map')) as [<-|?].
      * rewrite lookup_insert_eq. eauto.
      * rewrite lookup_insert_ne by done. eauto.
  - intros p Hp. rewrite lookup_insert_ne by lia. apply Hmap. lia.
  - intros p Hp. apply Hmodel. lia.
  - done.
Qed.

(** [sessionDataForSkill] gives a live object for an active skill. *)
Lemma sessionDataForSkill_active id s :
  wf s → View.isActive s id = true →
  ∃ map, (View.sessionDataForSkill id s).1 = Some map ∧
         View.m_skillData (View.sessionDataForSkill id s).2 !! id = Some map ∧
         is_Some (View.maps (View.sessionDataForSkill id s).2 !! map).
Proof.
  intros Hwf Hact. unfold View.sessionDataForSkill.
  destruct (View.m_skillData s !! id) as [map|] eqn:Hid.
  - exists map. simpl. split_and!; [done|done|]. by eapply wf_live.
  - rewrite Hact. exists (View.next s). simpl.
    rewrite !lookup_insert_eq. split_and!; eauto.
Qed.

(** When the skill has session data already, nothing is created. *)
Lemma sessionDataForSkill_existing id s map :
  View.m_skillData s !! id = Some map → View.sessionDataForSkill id s = (Some map, s).
Proof. intros H. unfold View.sessionDataForSkill. by rewrite H. Qed.

(** ** The loop of [mycroft.session.set] *)

Ltac setProperty_cases :=
  unfold setProperty;
  match goal with
  | |- context [variantListToOrderedMap ?l] =>
      let rows := fresh "rows" in
      let ws := fresh "ws" in
      let Hrows := fresh "Hrows" in
      destruct (variantListToOrderedMap l) as [rows ws] eqn:Hrows
  end;
  match goal with
  | |- context [bool_decide (?rows = [])] => destruct (bool_decide_reflect (rows = []))
  end;
  simpl;
  match goal with
  | |- context [View.toModel ?s ?v] =>
      let dm := fresh "dm" in
      let Hdm := fresh "Hdm" in
      destruct (View.toModel s v) as [dm|] eqn:Hdm
  end;
  simpl.

Lemma toModel_qWarnings ws s v : View.toModel (View.qWarnings ws s) v = View.toModel s v.
Proof. done. Qed.

Lemma mapAt_qWarnings ws s map : View.mapAt (View.qWarnings ws s) map = View.mapAt s map.
Proof. done. Qed.

Lemma toModel_Some s v dm :
  View.toModel s v = Some dm ↔ v = VObject dm ∧ is_Some (View.models s !! dm).
Proof.
  unfold View.toModel. destruct v; try (split; [done|by intros [? _]]).
  case_bool_decide; split.
  - by intros [= ->].
  - by intros [[= ->] _].
  - done.
  - intros [[= ->] ?]. done.
Qed.

Section SetProperty.

Variables (map : nat) (s : View.t) (key : string) (value : QVariant).

Local Abbreviation s' := (setProperty map s (key, value)).

Lemma setProperty_wf : wf s → wf s'.
Proof.
  intros [Hlive Hmap Hmodel Hdel]. setProperty_cases; split; simpl; try done.
  - intros id m H. rewrite lookup_alter_is_Some. eauto.
  - intros p Hp. rewrite lookup_alter_None. eauto.
  - intros id m H. rewrite lookup_alter_is_Some. eauto.
  - intros p Hp. rewrite lookup_alter_None. eauto.
  - intros p Hp. rewrite !lookup_alter_None. eauto.
  - intros id m H. rewrite lookup_alter_is_Some. eauto.
  - intros p Hp. rewrite lookup_alter_None. apply Hmap. lia.
  - intros p Hp. rewrite lookup_alter_None, lookup_insert_ne by lia. apply Hmodel. lia.
Qed.

Lemma setProperty_skillData : View.m_skillData s' = View.m_skillData s.
Proof. by setProperty_cases. Qed.

Lemma setProperty_live m : is_Some (View.maps s !! m) → is_Some (View.maps s' !! m).
Proof. setProperty_cases; rewrite ?lookup_alter_is_Some; done. Qed.

Lemma setProperty_model_live p : is_Some (View.models s !! p) → is_Some (View.models s' !! p).
Proof.
  setProperty_cases; rewrite ?lookup_alter_is_Some; try done.
  intros H. destruct (decide (View.next s = p)) as [<-|?].
  - rewrite lookup_insert_eq. eauto.
  - by rewrite lookup_insert_ne.
Qed.

Lemma setProperty_deleted : ∃ l, View.deleted s' = View.deleted s ++ l.
Proof.
  setProperty_cases; try (exists []; by rewrite app_nil_r). by eexists [_].
Qed.

Lemma setProperty_warnings :
  View.warnings s' = View.warnings s ++ (variantListToOrderedMap (Variant.toList value)).2.
Proof. by setProperty_cases. Qed.

(** A turn of the loop leaves every other property of every skill alone. *)
Lemma setProperty_other m k :
  m ≠ map ∨ k ≠ key → View.mapAt s' m !! k = View.mapAt s m !! k.
Proof.
  intros Hne. unfold View.mapAt.
  setProperty_cases; try done;
    (destruct (decide (map = m)) as [<-|?];
     [ rewrite lookup_alter_eq; destruct (View.maps s !! map); simpl; [|done];
       unfold SessionDataMap.insertAndNotify; rewrite lookup_insert_ne;
       [done|destruct Hne; congruence]
     | by rewrite lookup_alter_ne ]).
Qed.

(** A value that converts to no row is stored as it is, and the row
    collection the property held before goes to [deleteLater]. *)
Lemma setProperty_opaque :
  is_Some (View.maps s !! map) →
  (variantListToOrderedMap (Variant.toList value)).1 = [] →
  View.mapAt s' map !! key = Some value ∧
  ∀ dm, View.toModel s (SessionDataMap.value (View.mapAt s map) key) = Some dm →
        dm ∈ View.deleted s'.
Proof.
  intros [m Hm] Hnil. unfold View.mapAt.
  setProperty_cases; simpl in Hnil; try done.
  - rewrite lookup_alter_eq, Hm. simpl.
    unfold SessionDataMap.insertAndNotify. rewrite lookup_insert_eq. split; [done|].
    intros dm' Hdm'.
    unfold View.mapAt in Hdm. simpl in Hdm. rewrite Hm in Hdm.
    change (View.toModel s (SessionDataMap.value m key) = Some dm) in Hdm.
    assert (dm' = dm) as -> by congruence.
    apply elem_of_app. right. by apply list_elem_of_singleton.
  - rewrite lookup_alter_eq, Hm. simpl.
    unfold SessionDataMap.insertAndNotify. rewrite lookup_insert_eq. split; [done|].
    intros dm' Hdm'.
    unfold View.mapAt in Hdm. simpl in Hdm. rewrite Hm in Hdm.
    change (View.toModel s (SessionDataMap.value m key) = None) in Hdm. congruence.
Qed.

End SetProperty.

Section SetLoop.

Variable map : nat.

Lemma setLoop_wf data s : wf s → wf (foldl (setProperty map) s data).
Proof.
  revert s. induction data as [|[k v] data IH]; intros s Hwf; cbn [foldl]; [done|].
  apply IH. by apply setProperty_wf.
Qed.

Lemma setLoop_skillData data s :
  View.m_skillData (foldl (setProperty map) s data) = View.m_skillData s.
Proof.
  revert s. induction data as [|[k v] data IH]; intros s; cbn [foldl]; [done|].
  by rewrite IH, setProperty_skillData.
Qed.

Lemma setLoop_skills data s :
  View.m_activeSkillsModel (foldl (setProperty map) s data) = View.m_activeSkillsModel s.
Proof.
  revert s. induction data as [|[k v] data IH]; intros s; cbn [foldl]; [done|].
  rewrite IH. by setProperty_cases.
Qed.

Lemma setLoop_deleted data s :
  ∃ l, View.deleted (foldl (setProperty map) s data) = View.deleted s ++ l.
Proof.
  revert s. induction data as [|[k v] data IH]; intros s; cbn [foldl].
  - exists []. by rewrite app_nil_r.
  - destruct (IH (setProperty map s (k, v))) as [l2 ->].
    destruct (setProperty_deleted map s k v) as [l1 ->].
    exists (l1 ++ l2). by rewrite app_assoc.
Qed.

Lemma setLoop_warnings data s :
  ∃ l, View.warnings (foldl (setProperty map) s data) = View.warnings s ++ l ∧
       ∀ k v, (k, v) ∈ data → (variantListToOrderedMap (Variant.toList v)).2 ⊆ l.
Proof.
  revert s. induction data as [|[k v] data IH]; intros s; cbn [foldl].
  - exists []. rewrite app_nil_r. split; [done|]. intros ? ? H. by apply elem_of_nil in H.
  - destruct (IH (setProperty map s (k, v))) as [l2 [-> Hl2]].
    rewrite setProperty_warnings. eexists. rewrite <- app_assoc. split; [done|].
    intros k' v' [[= -> ->]|Hin]%elem_of_cons w Hw; apply elem_of_app; [by left|right].
    by eapply Hl2.
Qed.

(** The loop touches only the properties named in the update. *)
Lemma setLoop_other data s m k :
  m ≠ map ∨ k ∉ Json.keys data →
  View.mapAt (foldl (setProperty map) s data) m !! k = View.mapAt s m !! k.
Proof.
  revert s. induction data as [|[k' v] data IH]; intros s Hne; cbn [foldl]; [done|].
  rewrite IH.
  - apply setProperty_other. destruct Hne as [?|Hk]; [by left|right].
    intros ->. apply Hk. simpl. by left.
  - destruct Hne as [?|Hk]; [by left|right]. intros Hin. apply Hk. simpl. by right.
Qed.

(** A property of the update whose value converts to no row ends up holding
    that value, and the row collection it held before is handed to
    [deleteLater]. *)
Lemma setLoop_opaque data s key value :
  is_Some (View.maps s !! map) →
  NoDup (Json.keys data) → (key, value) ∈ data →
  (variantListToOrderedMap (Variant.toList value)).1 = [] →
  View.mapAt (foldl (setProperty map) s data) map !! key = Some value ∧
  ∀ dm, View.toModel s (SessionDataMap.value (View.mapAt s map) key) = Some dm →
        dm ∈ View.deleted (foldl (setProperty map) s data).
Proof.
  revert s. induction data as [|[k v] data IH]; intros s Hlive Hnd Hin Hnil.
  { by apply elem_of_nil in Hin. }
  simpl in Hnd. apply NoDup_cons in Hnd as [Hk Hnd]. cbn [foldl].
  apply elem_of_cons in Hin as [[= <- <-]|Hin].
  - destruct (setProperty_opaque map s key value Hlive Hnil) as [Hval Hdel].
    rewrite setLoop_other by (by right). split; [done|].
    intros dm Hdm. destruct (setLoop_deleted data (setProperty map s (key, value))) as [l ->].
    apply elem_of_app. left. by apply Hdel.
  - assert (k ≠ key) as Hne.
    { intros ->. apply Hk. apply list_elem_of_fmap. by exists (key, value). }
    destruct (IH (setProperty map s (k, v))) as [Hval Hdel]; try done.
    { by apply setProperty_live. }
    split; [done|]. intros dm Hdm. apply Hdel.
    unfold SessionDataMap.value in *. rewrite setProperty_other by (right; congruence).
    apply toModel_Some in Hdm as [-> Hm]. apply toModel_Some. split; [done|].
    by apply setProperty_model_live.
Qed.

End SetLoop.

(** ** Every frame keeps the view well formed *)

Lemma sessionDataForSkill_skills id s :
  View.m_activeSkillsModel (View.sessionDataForSkill id s).2 = View.m_activeSkillsModel s.
Proof.
  unfold View.sessionDataForSkill.
  destruct (View.m_skillData s !! id); [done|]. by destruct (View.isActive s id).
Qed.

Lemma delegateForSkill_None m id url :
  ActiveSkillsModel.delegateForSkill m id url = None →
  (id, url) ∉ delegateKey <$> ActiveSkillsModel.m_delegates m.
Proof.
  unfold ActiveSkillsModel.delegateForSkill. intros Hfind Hin.
  apply list_elem_of_fmap in Hin as [d [Hkey Hd]].
  apply list_elem_of_In in Hd. eapply find_none in Hd; [|done].
  unfold delegateKey in Hkey. injection Hkey as -> ->.
  by rewrite !bool_decide_eq_true_2 in Hd.
Qed.

Lemma delegateForSkill_Some m id url d :
  ActiveSkillsModel.delegateForSkill m id url = Some d →
  d ∈ ActiveSkillsModel.m_delegates m ∧ delegateKey d = (id, url).
Proof.
  unfold ActiveSkillsModel.delegateForSkill. intros Hfind.
  apply find_some in Hfind as [Hin Hd]. apply list_elem_of_In in Hin.
  apply andb_true_iff in Hd as [H1 H2].
  apply bool_decide_eq_true in H1, H2. unfold delegateKey. by rewrite H1, H2.
Qed.

Lemma wf_setDelegates a s :
  wf s → NoDup (delegateKey <$> ActiveSkillsModel.m_delegates a) →
  wf (View.setActiveSkillsModel a s).
Proof. intros [? ? ? ?] ?. by split. Qed.

Lemma eraseSkillData_wf position rows s :
  wf s → wf (foldl (eraseSkillData position) s rows).
Proof.
  revert s. induction rows as [|i rows IH]; intros s Hwf; cbn [foldl]; [done|].
  apply IH. unfold eraseSkillData. destruct (_ !! _) as [map|] eqn:Hmap; [|done].
  destruct Hwf as [Hlive ? ? ?]. split; simpl; try done.
  intros id m Hid. apply lookup_delete_Some in Hid as [_ Hid]. eauto.
Qed.

Lemma eraseSkillData_skills position rows s :
  View.m_activeSkillsModel (foldl (eraseSkillData position) s rows) = View.m_activeSkillsModel s.
Proof.
  revert s. induction rows as [|i rows IH]; intros s; cbn [foldl]; [done|].
  rewrite IH. unfold eraseSkillData. by destruct (_ !! _).
Qed.

Section Invariant.

Variable engine : string → QQmlComponent.
Variables (doc : QJsonDocument) (s : View.t).
Hypothesis Hwf : wf s.

Lemma onSessionSet_wf : wf (onSessionSet doc s).
Proof.
  unfold onSessionSet. repeat case_match; try by apply wf_qWarnings.
  - apply setLoop_wf.
    match goal with H : View.sessionDataForSkill ?id s = _ |- _ =>
      pose proof (sessionDataForSkill_wf id s Hwf) as Hs; by rewrite H in Hs end.
  - match goal with H : View.sessionDataForSkill ?id s = _ |- _ =>
      pose proof (sessionDataForSkill_wf id s Hwf) as Hs; by rewrite H in Hs end.
Qed.

Lemma onSessionDelete_wf : wf (onSessionDelete doc s).
Proof.
  unfold onSessionDelete. repeat case_match; try by apply wf_qWarnings.
  - match goal with H : View.sessionDataForSkill ?id s = _ |- _ =>
      pose proof (sessionDataForSkill_wf id s Hwf) as Hs;
      pose proof (sessionDataForSkill_active id s Hwf) as Ha; rewrite H in Hs, Ha end.
    destruct Ha as [mp [Heq [_ Hlive]]].
    { match goal with H : negb _ = false |- _ => by apply negb_false_iff in H end. }
    simpl in *. injection Heq as ->.
    apply wf_qWarnings. destruct Hs as [Hl Hm ? ?]. split; simpl; try done.
    + intros id' m' Hid'. destruct (decide (mp = m')) as [<-|?].
      * rewrite lookup_insert_eq. eauto.
      * rewrite lookup_insert_ne by done. eauto.
    + intros p Hp. destruct (decide (mp = p)) as [<-|?].
      * rewrite Hm in Hlive by done. by destruct Hlive.
      * rewrite lookup_insert_ne by done. eauto.
  - match goal with H : View.sessionDataForSkill ?id s = _ |- _ =>
      pose proof (sessionDataForSkill_wf id s Hwf) as Hs; by rewrite H in Hs end.
Qed.

Lemma onGuiShow_wf : wf (onGuiShow engine doc s).
Proof.
  unfold onGuiShow. repeat case_match; try by apply wf_qWarnings.
  - by apply wf_emits.
  - match goal with H : View.sessionDataForSkill ?id ?t = _ |- _ =>
      assert (wf t) as Hwf' by (destruct Hwf as [? Hm Hd ?]; split; simpl; try done;
                                intros p Hp; [apply Hm|apply Hd]; lia);
      pose proof (sessionDataForSkill_wf id t Hwf') as Hs;
      pose proof (sessionDataForSkill_skills id t) as Hk; rewrite H in Hs, Hk end.
    simpl in *. apply wf_emits, wf_setDelegates; [done|]. simpl.
    rewrite Hk, fmap_app. apply NoDup_app. split_and!.
    + by apply wf_delegates.
    + intros x Hx Hin. apply list_elem_of_singleton in Hin. subst x.
      eapply delegateForSkill_None; [|exact Hx]. done.
    + apply NoDup_singleton.
Qed.

Lemma onSessionInsert_wf : wf (onSessionInsert doc s).
Proof.
  unfold onSessionInsert. repeat case_match; try by apply wf_qWarnings.
  - by apply wf_qWarnings, wf_qWarnings.
  - apply wf_setDelegates; [by apply wf_qWarnings|].
    unfold ActiveSkillsModel.insertSkills. case_match; simpl; by apply wf_delegates.
Qed.

Lemma onSessionRemove_wf : wf (onSessionRemove doc s).
Proof.
  unfold onSessionRemove. repeat case_match; try by apply wf_qWarnings.
  apply wf_setDelegates; [by apply eraseSkillData_wf|].
  rewrite eraseSkillData_skills.
  unfold ActiveSkillsModel.removeRows. case_match; simpl; [by apply wf_delegates|].
  eapply sublist_NoDup; [by apply wf_delegates|]. apply fmap_sublist, sublist_filter.
Qed.

Lemma onSessionMove_wf : wf (onSessionMove doc s).
Proof.
  unfold onSessionMove. repeat case_match; try by apply wf_qWarnings.
  apply wf_setDelegates; [done|].
  unfold ActiveSkillsModel.moveRows. case_match; simpl; by apply wf_delegates.
Qed.

Lemma onEventsTriggered_wf : wf (onEventsTriggered doc s).
Proof.
  unfold onEventsTriggered. repeat case_match; try by apply wf_qWarnings.
  all: by apply wf_emits.
Qed.

Lemma onGuiSocketMessageReceived_wf : wf (onGuiSocketMessageReceived engine doc s).
Proof.
  unfold onGuiSocketMessageReceived.
  repeat case_match; try (by apply wf_qWarnings);
    auto using onSessionSet_wf, onSessionDelete_wf, onGuiShow_wf, onSessionInsert_wf,
      onSessionRemove_wf, onSessionMove_wf, onEventsTriggered_wf.
Qed.

End Invariant.

(** Every state the view reaches from its initial state is well formed. *)
Lemma run_wf engine frames : wf (Scenario.run engine frames).
Proof.
  unfold Scenario.run. generalize wf_init. generalize View.init.
  induction frames as [|doc frames IH]; intros s Hwf; cbn [foldl]; [done|].
  apply IH. by apply onGuiSocketMessageReceived_wf.
Qed.

(** ** The session store: set and delete *)

(** A property value that came in a frame is never a row-collection
    object. *)
Lemma frame_value_not_model j key value s :
  (key, value) ∈ Variant.toMap (Json.toVariant j) → View.toModel s value = None.
Proof.
  destruct j; simpl; try (intros H; by apply elem_of_nil in H).
  intros [[k v] [[= -> ->] _]]%list_elem_of_fmap. simpl. by destruct v.
Qed.

Section SessionStore.

Variable engine : string → QQmlComponent.
Variables (doc : QJsonDocument) (s : View.t).

Local Abbreviation type := (Json.toString (Json.at_ doc "type")).
Local Abbreviation skill := (Json.toString (Json.at_ doc "namespace")).
Local Abbreviation property := (Json.toString (Json.at_ doc "property")).
Local Abbreviation data := (Variant.toMap (Json.toVariant (Json.at_ doc "data"))).
Local Abbreviation s' := (onGuiSocketMessageReceived engine doc s).

(** C5. A [mycroft.session.set] for a skill that is not active, or with an
    empty property map, changes nothing and prints a warning; in particular
    no session data is created. *)
Theorem applyUpdate_rejected :
  type = type_set →
  View.isActive s skill = false ∨ data = [] →
  (∃ w, s' = View.qWarning w s) ∧ View.m_skillData s' = View.m_skillData s.
Proof.
  intros Ht Hcase. rewrite dispatch_set by done. unfold onSessionSet.
  destruct (bool_decide (skill = "")); [by eauto|].
  destruct (View.isActive s skill); simpl; [|by eauto].
  destruct Hcase as [?| Hd]; [done|]. rewrite Hd. simpl. by eauto.
Qed.

(** An accepted update reaches the loop over its properties. *)
Lemma onSessionSet_accepted :
  type = type_set → wf s → skill ≠ "" → View.isActive s skill = true → data ≠ [] →
  ∃ map s1, View.sessionDataForSkill skill s = (Some map, s1) ∧
            View.m_skillData s1 !! skill = Some map ∧
            is_Some (View.maps s1 !! map) ∧
            s' = foldl (setProperty map) s1 data.
Proof.
  intros Ht Hwf Hid Hact Hdata. rewrite dispatch_set by done. unfold onSessionSet.
  rewrite bool_decide_eq_false_2 by done. rewrite Hact. simpl.
  rewrite bool_decide_eq_false_2 by done.
  destruct (sessionDataForSkill_active skill s Hwf Hact) as [map [H1 [H2 H3]]].
  destruct (View.sessionDataForSkill skill s) as [o s1]. simpl in *. subst o.
  by exists map, s1.
Qed.

(** C10. In an accepted [mycroft.session.set], a property whose value
    converts to no row is stored as that very value, which is not a
    row-collection, and the row-collection model the property held before
    is handed to [deleteLater]. *)
Theorem set_no_rows_stored_opaque (key : string) (value : QVariant) :
  type = type_set → wf s → skill ≠ "" → View.isActive s skill = true →
  NoDup (Json.keys data) → (key, value) ∈ data →
  (variantListToOrderedMap (Variant.toList value)).1 = [] →
  ∃ map, View.m_skillData s' !! skill = Some map ∧
         View.mapAt s' map !! key = Some value ∧
         View.toModel s' value = None ∧
         ∀ old dm, View.m_skillData s !! skill = Some old →
                   View.mapAt s old !! key = Some (VObject dm) →
                   is_Some (View.models s !! dm) →
                   dm ∈ View.deleted s'.
Proof.
  intros Ht Hwf Hid Hact Hnd Hin Hnil.
  destruct onSessionSet_accepted as (map & s1 & Hsd & Hmap & Hlive & ->); try done.
  { intros Hd. rewrite Hd in Hin. by apply elem_of_nil in Hin. }
  destruct (setLoop_opaque map data s1 key value Hlive Hnd Hin Hnil) as [Hval Hdel].
  exists map. rewrite setLoop_skillData. split_and!; try done.
  - by eapply frame_value_not_model.
  - intros old dm Hold Hkey Hdm.
    rewrite (sessionDataForSkill_existing _ _ _ Hold) in Hsd. injection Hsd as <- <-.
    apply Hdel. unfold SessionDataMap.value. rewrite Hkey. simpl.
    by rewrite bool_decide_eq_true_2.
Qed.

(** C2, as the code has it. When a property that holds a row-collection is
    updated with an array that has an entry which is not an object, the
    corruption is reported; and when that entry is the first of the array,
    the update is not aborted: the row-collection model goes to
    [deleteLater] and the property holds the incoming array as it came. *)
Theorem set_corrupt_rows (key : string) (array : list QVariant) (old dm : nat) :
  type = type_set → wf s → skill ≠ "" → View.isActive s skill = true →
  NoDup (Json.keys data) → (key, VList array) ∈ data →
  View.m_skillData s !! skill = Some old →
  View.mapAt s old !! key = Some (VObject dm) →
  is_Some (View.models s !! dm) →
  (∃ item, item ∈ array ∧ Variant.canConvertMap item = false) →
  (∃ ws, View.warnings s' = View.warnings s ++ ws ∧ warn_array_corrupted ∈ ws) ∧
  (∀ item rest, array = item :: rest → Variant.canConvertMap item = false →
     View.m_skillData s' !! skill = Some old ∧
     View.mapAt s' old !! key = Some (VList array) ∧
     dm ∈ View.deleted s').
Proof.
  intros Ht Hwf Hid Hact Hnd Hin Hold Hkey Hdm Hbad.
  destruct onSessionSet_accepted as (map & s1 & Hsd & Hmap & Hlive & ->); try done.
  { intros Hd. rewrite Hd in Hin. by apply elem_of_nil in Hin. }
  rewrite (sessionDataForSkill_existing _ _ _ Hold) in Hsd. injection Hsd as <- <-.
  split.
  - destruct (setLoop_warnings old data s) as [ws [-> Hws]]. exists ws. split; [done|].
    eapply Hws; [done|]. by apply variantListToOrderedMap_from_warns.
  - intros item rest -> Hitem.
    destruct (setLoop_opaque old data s key (VList (item :: rest))) as [Hval Hdel]; try done.
    { by apply variantListToOrderedMap_nil. }
    rewrite setLoop_skillData. split_and!; try done.
    apply Hdel. unfold SessionDataMap.value. rewrite Hkey. simpl.
    by rewrite bool_decide_eq_true_2.
Qed.

End SessionStore.

Lemma applyUpdate_rejected_witness :
  (∃ w, onGuiSocketMessageReceived Scenario.loads SetScenario.radio Scenario.threeSkills
        = View.qWarning w Scenario.threeSkills) ∧
  View.m_skillData
    (onGuiSocketMessageReceived Scenario.loads SetScenario.radio Scenario.threeSkills)
  = View.m_skillData Scenario.threeSkills.
Proof.
  apply applyUpdate_rejected; [reflexivity|]. left. reflexivity.
Defined.

Lemma set_no_rows_stored_opaque_witness :
  ∃ map,
    View.m_skillData
      (onGuiSocketMessageReceived Scenario.loads SetScenario.emptyForecast Scenario.forecast)
      !! "weather" = Some map ∧
    View.mapAt
      (onGuiSocketMessageReceived Scenario.loads SetScenario.emptyForecast Scenario.forecast)
      map !! "forecast" = Some (VList []) ∧
    View.toModel
      (onGuiSocketMessageReceived Scenario.loads SetScenario.emptyForecast Scenario.forecast)
      (VList []) = None ∧
    ∀ old dm, View.m_skillData Scenario.forecast !! "weather" = Some old →
              View.mapAt Scenario.forecast old !! "forecast" = Some (VObject dm) →
              is_Some (View.models Scenario.forecast !! dm) →
              dm ∈ View.deleted
                     (onGuiSocketMessageReceived Scenario.loads SetScenario.emptyForecast
                        Scenario.forecast).
Proof.
  apply (set_no_rows_stored_opaque Scenario.loads SetScenario.emptyForecast Scenario.forecast
           "forecast" (VList [])).
  - reflexivity.
  - exact (run_wf _ _).
  - discriminate.
  - reflexivity.
  - apply NoDup_singleton.
  - apply elem_of_cons. by left.
  - reflexivity.
Defined.

(** C2 fails: the forecast of "weather" is a two-row collection; an update
    with the array ["rain"] is not aborted, the property then holds that
    array and the collection is handed to [deleteLater]. *)
Lemma set_corrupt_rows_not_preserved :
  (∃ map dm,
     View.m_skillData Scenario.forecast !! "weather" = Some map ∧
     View.mapAt Scenario.forecast map !! "forecast" = Some (VObject dm) ∧
     is_Some (View.models Scenario.forecast !! dm)) ∧
  ¬ rowsPreserved Scenario.forecast
      (onGuiSocketMessageReceived Scenario.loads SetScenario.rain Scenario.forecast)
      "weather" "forecast".
Proof.
  split.
  - exists 0%nat, 1%nat. vm_compute. eauto.
  - intros (map & dm & rows & Hmap & Hdm & _ & Hkept & _).
    vm_compute in Hmap. injection Hmap as <-.
    vm_compute in Hkept. vm_compute in Hdm. congruence.
Qed.

(** When the entry that is not an object comes after a row, the rows before
    it replace the collection. *)
Example set_corrupt_rows_prefix :
  View.models
    (onGuiSocketMessageReceived Scenario.loads SetScenario.wedRain Scenario.forecast) !! 1%nat
  = Some [[("day", VString "Wed")]].
Proof. vm_compute. reflexivity. Qed.

Lemma set_corrupt_rows_witness :
  (∃ ws,
     View.warnings
       (onGuiSocketMessageReceived Scenario.loads SetScenario.rain Scenario.forecast)
     = View.warnings Scenario.forecast ++ ws ∧ warn_array_corrupted ∈ ws) ∧
  (∀ item rest, [VString "rain"] = item :: rest → Variant.canConvertMap item = false →
     View.m_skillData
       (onGuiSocketMessageReceived Scenario.loads SetScenario.rain Scenario.forecast)
       !! "weather" = Some 0%nat ∧
     View.mapAt
       (onGuiSocketMessageReceived Scenario.loads SetScenario.rain Scenario.forecast)
       0%nat !! "forecast" = Some (VList [VString "rain"]) ∧
     1%nat ∈ View.deleted
               (onGuiSocketMessageReceived Scenario.loads SetScenario.rain Scenario.forecast)).
Proof.
  apply (set_corrupt_rows Scenario.loads SetScenario.rain Scenario.forecast
           "forecast" [VString "rain"] 0%nat 1%nat).
  - reflexivity.
  - exact (run_wf _ _).
  - discriminate.
  - reflexivity.
  - apply NoDup_singleton.
  - apply elem_of_cons. by left.
  - reflexivity.
  - reflexivity.
  - exists [[("day", VString "Mon")]; [("day", VString "Tue")]]. reflexivity.
  - exists (VString "rain"). split; [|reflexivity]. apply elem_of_cons. by left.
Defined.

Lemma setMaps_id s : View.setMaps (View.maps s) s = s.
Proof. by destruct s. Qed.

Section Delete.

Variable engine : string → QQmlComponent.
Variables (doc : QJsonDocument) (s : View.t).

Local Abbreviation type := (Json.toString (Json.at_ doc "type")).
Local Abbreviation skill := (Json.toString (Json.at_ doc "namespace")).
Local Abbreviation property := (Json.toString (Json.at_ doc "property")).
Local Abbreviation s' := (onGuiSocketMessageReceived engine doc s).

(** C3, as the code has it. A [mycroft.session.delete] changes nothing and
    prints a warning when the skill is empty or not active or the property
    name is empty.  Otherwise: when the skill has session data in which the
    property is not set, nothing changes and the error is reported; when
    the skill has no session data yet, the error is reported and an empty
    session data object is created for it; when the property is set, it is
    removed, and every other property of every skill is as before. *)
Theorem deleteProperty_cases :
  type = type_delete → wf s →
  (skill = "" ∨ View.isActive s skill = false ∨ property = "" →
     ∃ w, s' = View.qWarning w s) ∧
  (skill ≠ "" → View.isActive s skill = true → property ≠ "" →
     (∀ map, View.m_skillData s !! skill = Some map →
             View.mapAt s map !! property = None →
             s' = View.qWarning SessionDataMap.warn_unset s) ∧
     (View.m_skillData s !! skill = None →
        s' = View.qWarning SessionDataMap.warn_unset (View.sessionDataForSkill skill s).2 ∧
        View.m_skillData s' !! skill = Some (View.next s) ∧
        View.mapAt s' (View.next s) = ∅) ∧
     (∀ map, View.m_skillData s !! skill = Some map →
             is_Some (View.mapAt s map !! property) →
             View.m_skillData s' = View.m_skillData s ∧
             View.mapAt s' map !! property = None ∧
             (∀ k, k ≠ property → View.mapAt s' map !! k = View.mapAt s map !! k) ∧
             (∀ m, m ≠ map → View.mapAt s' m = View.mapAt s m) ∧
             View.warnings s' = View.warnings s)).
Proof.
  intros Ht Hwf. rewrite dispatch_delete by done. unfold onSessionDelete. split.
  - intros Hcase. destruct (bool_decide_reflect (skill = "")); [by eauto|].
    destruct (View.isActive s skill); simpl; [|by eauto].
    destruct (bool_decide_reflect (property = "")); [by eauto|].
    destruct Hcase as [?|[?|?]]; done.
  - intros Hid Hact Hprop.
    rewrite bool_decide_eq_false_2 by done. rewrite Hact. simpl.
    rewrite bool_decide_eq_false_2 by done. split_and!.
    + intros map Hmap Hunset. rewrite (sessionDataForSkill_existing _ _ _ Hmap).
      unfold SessionDataMap.clearAndNotify. rewrite Hunset.
      destruct (wf_live s Hwf _ _ Hmap) as [m Hm].
      unfold View.mapAt. rewrite Hm. simpl.
      rewrite insert_id by done. by rewrite setMaps_id.
    + intros Hnone. unfold View.sessionDataForSkill. rewrite Hnone, Hact.
      unfold SessionDataMap.clearAndNotify, View.mapAt. simpl.
      rewrite lookup_insert_eq. simpl. rewrite lookup_empty.
      rewrite insert_insert_eq. unfold View.qWarning, View.qWarnings. simpl.
      rewrite !lookup_insert_eq. done.
    + intros map Hmap [v Hset]. rewrite (sessionDataForSkill_existing _ _ _ Hmap).
      unfold SessionDataMap.clearAndNotify. rewrite Hset.
      unfold View.mapAt. simpl. rewrite lookup_insert_eq. simpl.
      rewrite app_nil_r. split_and!; try done.
      * apply lookup_delete_eq.
      * intros k Hk. by rewrite lookup_delete_ne.
      * intros m Hm. by rewrite lookup_insert_ne.
Qed.

End Delete.

(** C3 fails: "weather" is active and has no property "forecast"; the delete
    is not a no-op, it leaves session data for "weather" behind. *)
Lemma deleteProperty_unset_not_noop :
  View.isActive Scenario.threeSkills "weather" = true ∧
  View.m_skillData Scenario.threeSkills !! "weather" = None ∧
  ¬ ∃ ws, onGuiSocketMessageReceived Scenario.loads DeleteScenario.early Scenario.threeSkills
          = View.qWarnings ws Scenario.threeSkills.
Proof.
  split_and!; [reflexivity|reflexivity|].
  intros [ws Heq]. apply (f_equal (λ t, View.m_skillData t !! "weather")) in Heq.
  vm_compute in Heq. discriminate.
Qed.

(** The forecast of "weather" is deleted. *)
Lemma deleteProperty_cases_witness :
  View.mapAt
    (onGuiSocketMessageReceived Scenario.loads DeleteScenario.early Scenario.forecast)
    0%nat !! "forecast" = None ∧
  View.warnings
    (onGuiSocketMessageReceived Scenario.loads DeleteScenario.early Scenario.forecast)
  = View.warnings Scenario.forecast.
Proof.
  destruct (deleteProperty_cases Scenario.loads DeleteScenario.early Scenario.forecast
              eq_refl (run_wf _ _)) as [_ H].
  destruct H as (_ & _ & H); [discriminate|reflexivity|discriminate|].
  destruct (H 0%nat eq_refl) as (_ & Hnone & _ & _ & Hw).
  - vm_compute. eauto.
  - split; assumption.
Defined.

(** ** Removing skills: the cascade *)

Section EraseLoop.

Variable position : Z.

Lemma eraseSkillData_deleted rows s :
  ∃ l, View.deleted (foldl (eraseSkillData position) s rows) = View.deleted s ++ l.
Proof.
  revert s. induction rows as [|i rows IH]; intros s; cbn [foldl].
  - exists []. by rewrite app_nil_r.
  - destruct (IH (eraseSkillData position s i)) as [l ->].
    unfold eraseSkillData. destruct (_ !! _); simpl; [|by eauto].
    rewrite <- app_assoc. by eauto.
Qed.

(** Session data that is gone stays gone. *)
Lemma eraseSkillData_None rows s id :
  View.m_skillData s !! id = None →
  View.m_skillData (foldl (eraseSkillData position) s rows) !! id = None.
Proof.
  revert s. induction rows as [|i rows IH]; intros s Hnone; cbn [foldl]; [done|].
  apply IH. unfold eraseSkillData.
  destruct (View.m_skillData s !! ActiveSkillsModel.data _ _); simpl; [|done].
  apply lookup_delete_None. by right.
Qed.

(** The loop erases the session data of the skill at every row it
    visits. *)
Lemma eraseSkillData_erased rows s i :
  i ∈ rows →
  View.m_skillData (foldl (eraseSkillData position) s rows)
    !! ActiveSkillsModel.data (View.m_activeSkillsModel s) (position + Z.of_nat i) = None.
Proof.
  revert s. induction rows as [|j rows IH]; intros s Hin; cbn [foldl].
  { by apply elem_of_nil in Hin. }
  assert (View.m_activeSkillsModel (eraseSkillData position s j) = View.m_activeSkillsModel s)
    as Hsame by (unfold eraseSkillData; by destruct (_ !! _)).
  apply elem_of_cons in Hin as [->|Hin].
  - apply eraseSkillData_None. unfold eraseSkillData.
    destruct (View.m_skillData s !! _) eqn:Hd; simpl; [|done]. apply lookup_delete_eq.
  - rewrite <- Hsame. by apply IH.
Qed.

(** What the loop erases it hands to [deleteLater]. *)
Lemma eraseSkillData_deleteLater rows s id map :
  View.m_skillData s !! id = Some map →
  View.m_skillData (foldl (eraseSkillData position) s rows) !! id = None →
  map ∈ View.deleted (foldl (eraseSkillData position) s rows).
Proof.
  revert s. induction rows as [|j rows IH]; intros s Hsome Hnone; cbn [foldl] in *.
  { congruence. }
  destruct (View.m_skillData (eraseSkillData position s j) !! id) as [map'|] eqn:Hstep.
  - apply IH; [|done]. rewrite Hstep. f_equal.
    unfold eraseSkillData in Hstep.
    destruct (View.m_skillData s !! ActiveSkillsModel.data _ _); simpl in Hstep; [|congruence].
    apply lookup_delete_Some in Hstep as [_ Hstep]. congruence.
  - destruct (eraseSkillData_deleted rows (eraseSkillData position s j)) as [l ->].
    apply elem_of_app. left.
    unfold eraseSkillData in *.
    destruct (View.m_skillData s !! ActiveSkillsModel.data _ _) as [map'|] eqn:Hd;
      simpl in *; [|congruence].
    apply lookup_delete_None in Hstep as [Heq|Hstep]; [|congruence].
    rewrite <- Heq in Hsome. assert (map' = map) as -> by congruence.
    apply elem_of_app. right. by apply list_elem_of_singleton.
Qed.

End EraseLoop.

Section Remove.

Variable engine : string → QQmlComponent.
Variables (doc : QJsonDocument) (s : View.t).

Local Abbreviation type := (Json.toString (Json.at_ doc "type")).
Local Abbreviation namespace := (Json.toString (Json.at_ doc "namespace")).
Local Abbreviation position := (Json.toInt (Json.at_ doc "position")).
Local Abbreviation itemsNumber := (Json.toInt (Json.at_ doc "items_number")).
Local Abbreviation skills := (ActiveSkillsModel.m_skills (View.m_activeSkillsModel s)).
Local Abbreviation rowCount := (ActiveSkillsModel.rowCount (View.m_activeSkillsModel s)).
Local Abbreviation s' := (onGuiSocketMessageReceived engine doc s).

(** The state after the loop over the removed skills, before
    [removeRows]. *)
Local Abbreviation cleaned :=
  (foldl (eraseSkillData position) s (seq 0 (Z.to_nat itemsNumber))).

(** C4. In a remove that the guard lets through, the session data of every
    removed skill is erased and handed to [deleteLater] while the list of
    skills is still whole; [removeRows] then destroys the delegates and
    removes the rows.  Afterwards no removed skill has session data or a
    delegate. *)
Theorem remove_cascade (id : string) :
  type = type_remove → namespace = ns_active_skills →
  (0 ≤ position ≤ rowCount - 1)%Z →
  (0 ≤ itemsNumber ≤ rowCount - position - 1)%Z →
  id ∈ take (Z.to_nat itemsNumber) (drop (Z.to_nat position) skills) →
  s' = View.setActiveSkillsModel
         (ActiveSkillsModel.removeRows position itemsNumber (View.m_activeSkillsModel s))
         cleaned ∧
  View.m_activeSkillsModel cleaned = View.m_activeSkillsModel s ∧
  View.m_skillData cleaned !! id = None ∧
  (∀ map, View.m_skillData s !! id = Some map → map ∈ View.deleted cleaned) ∧
  View.m_skillData s' !! id = None ∧
  (∀ d, d ∈ ActiveSkillsModel.m_delegates (View.m_activeSkillsModel s') → skillId d ≠ id) ∧
  ActiveSkillsModel.m_skills (View.m_activeSkillsModel s')
  = take (Z.to_nat position) skills
    ++ drop (Z.to_nat position + Z.to_nat itemsNumber) skills.
Proof.
  intros Ht Hns Hpos Hcnt Hid.
  assert (View.m_skillData cleaned !! id = None) as Hgone.
  { apply elem_of_take in Hid as [i [Hi Hlt]]. rewrite lookup_drop in Hi.
    pose proof (eraseSkillData_erased position (seq 0 (Z.to_nat itemsNumber)) s i) as He.
    unfold ActiveSkillsModel.data in He.
    replace (position + Z.of_nat i <? 0)%Z with false in He by lia.
    replace (Z.to_nat (position + Z.of_nat i)) with (Z.to_nat position + i)%nat in He by lia.
    rewrite (nth_lookup_Some _ _ _ _ Hi) in He. apply He. apply elem_of_seq. lia. }
  assert (s' = View.setActiveSkillsModel
                 (ActiveSkillsModel.removeRows position itemsNumber (View.m_activeSkillsModel s))
                 cleaned) as Heq.
  { rewrite dispatch_remove by done. unfold onSessionRemove.
    replace (position <? 0)%Z with false by lia.
    replace (rowCount - 1 <? position)%Z with false by lia.
    replace (itemsNumber <? 0)%Z with false by lia.
    replace (rowCount - position - 1 <? itemsNumber)%Z with false by lia.
    simpl. by rewrite eraseSkillData_skills. }
  rewrite Heq. split_and!; try done.
  - apply eraseSkillData_skills.
  - intros map Hmap. by eapply eraseSkillData_deleteLater.
  - simpl. unfold ActiveSkillsModel.removeRows.
    replace (position <? 0)%Z with false by lia.
    replace (rowCount - 1 <? position)%Z with false by lia.
    replace (itemsNumber <? 0)%Z with false by lia.
    replace (rowCount - position <? itemsNumber)%Z with false by lia.
    simpl. intros d Hd Hsk. apply list_elem_of_filter in Hd as [Hd _].
    apply Hd. by rewrite Hsk.
  - simpl. unfold ActiveSkillsModel.removeRows.
    replace (position <? 0)%Z with false by lia.
    replace (rowCount - 1 <? position)%Z with false by lia.
    replace (itemsNumber <? 0)%Z with false by lia.
    replace (rowCount - position <? itemsNumber)%Z with false by lia.
    done.
Qed.

End Remove.

Example shown_weather :
  View.m_skillData RemoveScenario.shown !! "weather" = Some 0%nat ∧
  ActiveSkillsModel.m_delegates (View.m_activeSkillsModel RemoveScenario.shown)
  = [mkDelegate 2 "weather" "file:///weather/forecast.qml" (Some 0%nat)].
Proof. split; vm_compute; reflexivity. Qed.

(** Removing "weather" leaves neither session data nor a delegate for it. *)
Lemma remove_cascade_witness :
  View.m_skillData
    (onGuiSocketMessageReceived Scenario.loads (Scenario.removeMsg 1 1) RemoveScenario.shown)
    !! "weather" = None ∧
  (∀ d, d ∈ ActiveSkillsModel.m_delegates
              (View.m_activeSkillsModel
                 (onGuiSocketMessageReceived Scenario.loads (Scenario.removeMsg 1 1)
                    RemoveScenario.shown)) →
        skillId d ≠ "weather").
Proof.
  assert (0 ≤ 1 ≤ ActiveSkillsModel.rowCount (View.m_activeSkillsModel RemoveScenario.shown) - 1)%Z
    as Hposition by (split; apply Z.leb_le; vm_compute; reflexivity).
  assert (0 ≤ 1 ≤ ActiveSkillsModel.rowCount (View.m_activeSkillsModel RemoveScenario.shown) - 1 - 1)%Z
    as Hcount by (split; apply Z.leb_le; vm_compute; reflexivity).
  assert ("weather" ∈ take 1 (drop 1 (ActiveSkillsModel.m_skills
                                        (View.m_activeSkillsModel RemoveScenario.shown))))
    as Hremoved by (vm_compute; constructor).
  destruct (remove_cascade Scenario.loads (Scenario.removeMsg 1 1) RemoveScenario.shown
              "weather" eq_refl eq_refl Hposition Hcount Hremoved)
    as (_ & _ & _ & _ & Hdata & Hdelegates & _).
  split; [exact Hdata|exact Hdelegates].
Defined.

(** ** Delegates: show and events *)

Lemma filter_key_unique {A B} `{EqDecision B} (f : A → B) (l : list A) (x : A) :
  NoDup (f <$> l) → x ∈ l → filter (λ y, f y = f x) l = [x].
Proof.
  induction l as [|a l IH]; intros Hnd Hin.
  { by apply elem_of_nil in Hin. }
  rewrite fmap_cons in Hnd. apply NoDup_cons in Hnd as [Ha Hnd].
  apply elem_of_cons in Hin as [->|Hin].
  - rewrite filter_cons_True by done. f_equal.
    destruct (filter (λ y, f y = f a) l) as [|y ys] eqn:Hf; [done|].
    assert (y ∈ filter (λ y, f y = f a) l) as Hy by (rewrite Hf; by left).
    apply list_elem_of_filter in Hy as [Hfy Hy]. exfalso. apply Ha.
    rewrite <- Hfy. by apply list_elem_of_fmap_2.
  - rewrite filter_cons_False; [by apply IH|].
    intros Hfa. apply Ha. rewrite Hfa. by apply list_elem_of_fmap_2.
Qed.

Lemma filter_key_absent {A B} `{EqDecision B} (f : A → B) (l : list A) (k : B) :
  k ∉ f <$> l → filter (λ y, f y = k) l = [].
Proof.
  intros Hk. destruct (filter (λ y, f y = k) l) as [|y ys] eqn:Hf; [done|].
  assert (y ∈ filter (λ y, f y = k) l) as Hy by (rewrite Hf; by left).
  apply list_elem_of_filter in Hy as [Hfy Hy]. exfalso. apply Hk.
  rewrite <- Hfy. by apply list_elem_of_fmap_2.
Qed.

Lemma find_snoc {A} (P : A → bool) (l : list A) (d : A) :
  List.find P l = None → P d = true → List.find P (l ++ [d]) = Some d.
Proof.
  induction l as [|a l IH]; simpl; intros Hnone Hd; [by rewrite Hd|].
  destruct (P a); [done|]. by apply IH.
Qed.

Section ShowOnce.

Variable engine : string → QQmlComponent.
Variables (doc : QJsonDocument) (s : View.t).

Local Abbreviation skill := (Json.toString (Json.at_ doc "namespace")).
Local Abbreviation url := (Json.toString (Json.at_ doc "gui_url")).
Local Abbreviation model := (View.m_activeSkillsModel s).

Hypothesis Hskill : skill ≠ "".
Hypothesis Hurl : url ≠ "".

Lemma onGuiShow_existing d :
  ActiveSkillsModel.delegateForSkill model skill url = Some d →
  onGuiShow engine doc s = View.emit (CurrentRequested (delegateAddr d)) s.
Proof.
  intros Hd. unfold onGuiShow. rewrite !bool_decide_eq_false_2 by done. by rewrite Hd.
Qed.

Lemma onGuiShow_failed :
  ActiveSkillsModel.delegateForSkill model skill url = None →
  errors (engine url) ≠ [] →
  onGuiShow engine doc s = View.qWarnings (errors (engine url)) s.
Proof.
  intros Hd Herr. unfold onGuiShow. rewrite !bool_decide_eq_false_2 by done. by rewrite Hd.
Qed.

Lemma onGuiShow_created :
  ActiveSkillsModel.delegateForSkill model skill url = None →
  errors (engine url) = [] → guiObject (engine url) = DelegateObject →
  ∃ map s0,
    View.sessionDataForSkill skill (View.setNext (S (View.next s)) s) = (map, s0) ∧
    onGuiShow engine doc s
    = View.emit (CurrentRequested (View.next s))
        (View.setActiveSkillsModel
           (ActiveSkillsModel.insertDelegate (mkDelegate (View.next s) skill url map) model)
           s0) ∧
    View.signals s0 = View.signals s.
Proof.
  intros Hd Herr Hobj. unfold onGuiShow. rewrite !bool_decide_eq_false_2 by done.
  rewrite Hd, Herr, Hobj. simpl.
  pose proof (sessionDataForSkill_skills skill (View.setNext (S (View.next s)) s)) as Hk.
  assert (View.signals (View.sessionDataForSkill skill (View.setNext (S (View.next s)) s)).2
          = View.signals s) as Hsig.
  { unfold View.sessionDataForSkill. simpl. destruct (View.m_skillData s !! skill); [done|].
    by destruct (View.isActive _ _). }
  destruct (View.sessionDataForSkill skill _) as [map s0]. simpl in *.
  exists map, s0. by rewrite Hk.
Qed.

End ShowOnce.

Section Show.

Variables (engine1 engine2 : string → QQmlComponent).
Variables (doc : QJsonDocument) (s : View.t).

Local Abbreviation type := (Json.toString (Json.at_ doc "type")).
Local Abbreviation skill := (Json.toString (Json.at_ doc "namespace")).
Local Abbreviation url := (Json.toString (Json.at_ doc "gui_url")).
Local Abbreviation s1 := (onGuiSocketMessageReceived engine1 doc s).
Local Abbreviation s2 := (onGuiSocketMessageReceived engine2 doc s1).

(** C6. Two [mycroft.gui.show] frames with the same non-empty skill and
    URL.  When the delegate exists already or the first frame loads it,
    exactly one delegate is registered for the pair after the first frame,
    which ends with [currentRequested] on it, and the second frame does
    nothing but emit [currentRequested] on that same delegate, whatever the
    engine would do.  When the template fails to load, its errors are
    printed and the state is otherwise as before: nothing is registered. *)
Theorem show_twice :
  type = type_show → wf s → skill ≠ "" → url ≠ "" →
  (is_Some (ActiveSkillsModel.delegateForSkill (View.m_activeSkillsModel s) skill url) ∨
   (errors (engine1 url) = [] ∧ guiObject (engine1 url) = DelegateObject) →
     ∃ d, registered s1 skill url = [d] ∧
          View.signals s1 = View.signals s ++ [CurrentRequested (delegateAddr d)] ∧
          s2 = View.emit (CurrentRequested (delegateAddr d)) s1) ∧
  (ActiveSkillsModel.delegateForSkill (View.m_activeSkillsModel s) skill url = None →
   errors (engine1 url) ≠ [] →
     s1 = View.qWarnings (errors (engine1 url)) s ∧
     registered s1 skill url = []).
Proof.
  intros Ht Hwf Hskill Hurl.
  rewrite (dispatch_show engine2) by done. rewrite (dispatch_show engine1) by done.
  split.
  - intros Hcase.
    destruct (ActiveSkillsModel.delegateForSkill (View.m_activeSkillsModel s) skill url)
      as [d|] eqn:Hd.
    + rewrite (onGuiShow_existing engine1 doc s Hskill Hurl d Hd).
      exists d. split_and!; [|done|by apply onGuiShow_existing].
      apply delegateForSkill_Some in Hd as [Hin Hkey].
      unfold registered. rewrite <- Hkey. apply filter_key_unique; [|done].
      exact (wf_delegates s Hwf).
    + destruct Hcase as [[? ?]|[Herr Hobj]]; [done|].
      destruct (onGuiShow_created engine1 doc s Hskill Hurl Hd Herr Hobj)
        as (map & s0 & _ & -> & Hsig).
      exists (mkDelegate (View.next s) skill url map). split_and!.
      * unfold registered. simpl. rewrite filter_app.
        rewrite filter_key_absent by (by apply delegateForSkill_None).
        by rewrite filter_cons_True.
      * simpl. by rewrite Hsig.
      * apply onGuiShow_existing; [done|done|].
        unfold ActiveSkillsModel.delegateForSkill. simpl. apply find_snoc; [done|].
        simpl. by rewrite !bool_decide_eq_true_2.
  - intros Hd Herr. rewrite onGuiShow_failed by done. split; [done|].
    unfold registered. simpl. apply filter_key_absent. by apply delegateForSkill_None.
Qed.

End Show.

(** The second show does not instantiate, even with an engine that would
    fail to load the template. *)
Lemma show_twice_witness :
  ∃ d,
    registered
      (onGuiSocketMessageReceived Scenario.loads ShowScenario.weather Scenario.threeSkills)
      "weather" "file:///weather/forecast.qml" = [d] ∧
    View.signals
      (onGuiSocketMessageReceived Scenario.loads ShowScenario.weather Scenario.threeSkills)
    = View.signals Scenario.threeSkills ++ [CurrentRequested (delegateAddr d)] ∧
    onGuiSocketMessageReceived Scenario.fails ShowScenario.weather
      (onGuiSocketMessageReceived Scenario.loads ShowScenario.weather Scenario.threeSkills)
    = View.emit (CurrentRequested (delegateAddr d))
        (onGuiSocketMessageReceived Scenario.loads ShowScenario.weather Scenario.threeSkills).
Proof.
  destruct (show_twice Scenario.loads Scenario.fails ShowScenario.weather Scenario.threeSkills
              eq_refl (run_wf _ _) ltac:(discriminate) ltac:(discriminate)) as [Hok _].
  apply Hok. right. split; reflexivity.
Defined.

(** A template that fails to load registers nothing. *)
Example show_failed :
  onGuiSocketMessageReceived Scenario.fails ShowScenario.weather Scenario.threeSkills
  = View.qWarnings ["file not found"] Scenario.threeSkills.
Proof. vm_compute. reflexivity. Qed.

Section Events.

Variable engine : string → QQmlComponent.
Variables (doc : QJsonDocument) (s : View.t).

Local Abbreviation type := (Json.toString (Json.at_ doc "type")).
Local Abbreviation namespace := (Json.toString (Json.at_ doc "namespace")).
Local Abbreviation eventName := (Json.toString (Json.at_ doc "event_name")).
Local Abbreviation data := (Variant.toMap (Json.toVariant (Json.at_ doc "data"))).
Local Abbreviation delegates := (ActiveSkillsModel.m_delegates (View.m_activeSkillsModel s)).
Local Abbreviation s' := (onGuiSocketMessageReceived engine doc s).

(** The signals [event(eventName, data)] on the given delegates. *)
Local Abbreviation events ds := (map (λ d, Event (delegateAddr d) eventName data) ds).

(** C7. A [mycroft.events.triggered] with a non-empty event name is
    delivered to every registered delegate when the namespace is "system",
    and to the delegates of the skill, and no other, when the namespace is
    an active skill.  With the namespace of a skill that is not active,
    with an empty namespace or with an empty event name, nothing is
    delivered and a warning is printed. *)
Theorem dispatchEvent_cases :
  type = type_events →
  (namespace = "system" → eventName ≠ "" → s' = View.emits (events delegates) s) ∧
  (namespace ≠ "system" → namespace ≠ "" → View.isActive s namespace = true →
   eventName ≠ "" →
     s' = View.emits (events (filter (λ d, skillId d = namespace) delegates)) s) ∧
  (namespace ≠ "system" → View.isActive s namespace = false → ∃ w, s' = View.qWarning w s) ∧
  (namespace = "" → ∃ w, s' = View.qWarning w s) ∧
  (eventName = "" → ∃ w, s' = View.qWarning w s).
Proof.
  intros Ht. rewrite dispatch_events by done. unfold onEventsTriggered. split_and!.
  - intros Hns Hname. rewrite Hns. simpl.
    rewrite (bool_decide_eq_false_2 (eventName = "")) by done. done.
  - intros Hns Hne Hact Hname.
    rewrite (bool_decide_eq_false_2 (namespace = "")) by done.
    rewrite Hact, andb_false_r.
    rewrite (bool_decide_eq_false_2 (eventName = "")) by done.
    rewrite (bool_decide_eq_false_2 (namespace = "system")) by done.
    unfold ActiveSkillsModel.delegatesForSkill.
    by rewrite (bool_decide_eq_false_2 (namespace = "")) by done.
  - intros Hns Hact. destruct (bool_decide (namespace = "")); [by eauto|].
    rewrite Hact. rewrite (bool_decide_eq_true_2 (namespace ≠ "system")) by done.
    simpl. by eauto.
  - intros Hns. rewrite (bool_decide_eq_true_2 (namespace = "")) by done. by eauto.
  - intros Hname. destruct (bool_decide (namespace = "")); [by eauto|].
    destruct (_ && _); [by eauto|].
    rewrite (bool_decide_eq_true_2 (eventName = "")) by done. by eauto.
Qed.

End Events.

Lemma dispatchEvent_cases_witness :
  View.signals
    (onGuiSocketMessageReceived Scenario.loads (Scenario.eventMsg "system" "page_gained_focus")
       EventScenario.twoDelegates)
  = View.signals EventScenario.twoDelegates
    ++ [Event 0 "page_gained_focus" []; Event 2 "page_gained_focus" []] ∧
  View.signals
    (onGuiSocketMessageReceived Scenario.loads (Scenario.eventMsg "timer" "page_gained_focus")
       EventScenario.twoDelegates)
  = View.signals EventScenario.twoDelegates ++ [Event 2 "page_gained_focus" []].
Proof.
  split.
  - destruct (dispatchEvent_cases Scenario.loads (Scenario.eventMsg "system" "page_gained_focus")
                EventScenario.twoDelegates eq_refl) as (H & _).
    rewrite H by done. vm_compute. reflexivity.
  - destruct (dispatchEvent_cases Scenario.loads (Scenario.eventMsg "timer" "page_gained_focus")
                EventScenario.twoDelegates eq_refl) as (_ & H & _).
    rewrite H by done. vm_compute. reflexivity.
Defined.

(** ** MycroftController: sending an utterance *)

Section Utterance.

Import Controller.

Variables (text : string) (c : Controller.t).

(** The derived status is [Open] exactly when the socket is connected and
    the reconnect timer is not armed. *)
Lemma status_Open_iff :
  status c = Open ↔ socketState c = ConnectedState ∧ reconnectTimerActive c = false.
Proof.
  unfold status.
  destruct (reconnectTimerActive c), (socketState c); split; try done; by intros [? ?].
Qed.

(** C8, as the code has it. [sendText] looks at the state of the socket, not
    at the derived status: when the socket is not connected it sends
    nothing and prints a warning; when it is connected, which is the case
    whenever the status is [Open], it sends exactly the utterance
    message. *)
Theorem sendText_cases :
  (socketState c ≠ ConnectedState →
     sendText text c
     = mk (socketState c) (reconnectTimerActive c) (sent c)
          (warnings c ++ ["mycroft connection not open!"]) (statusChanged c)) ∧
  (socketState c = ConnectedState →
     sendText text c
     = mk (socketState c) (reconnectTimerActive c) (sent c ++ [utterance text])
          (warnings c) (statusChanged c)) ∧
  (status c = Open → socketState c = ConnectedState).
Proof.
  unfold sendText, sendRequest. split_and!.
  - intros Hs. by rewrite bool_decide_eq_false_2.
  - intros Hs. by rewrite bool_decide_eq_true_2.
  - intros Hs. by apply status_Open_iff in Hs as [? _].
Qed.

End Utterance.

(** C8 fails: after a second [start] on a connected controller the reconnect
    timer is armed, so the derived status is [Connecting], not [Open], and
    [sendText] transmits all the same. *)
Lemma sendText_status_not_open :
  Controller.status UtteranceScenario.restarted ≠ Controller.Open ∧
  Controller.sent (Controller.sendText "what time is it" UtteranceScenario.restarted)
  = Controller.sent UtteranceScenario.restarted ++ [Controller.utterance "what time is it"].
Proof. split; [discriminate|reflexivity]. Qed.

(** On the restarted controller the socket is connected and the utterance
    goes out. *)
Lemma sendText_cases_witness :
  Controller.sendText "what time is it" UtteranceScenario.restarted
  = Controller.mk Controller.ConnectedState true [Controller.utterance "what time is it"] [] 5.
Proof.
  destruct (sendText_cases "what time is it" UtteranceScenario.restarted) as (_ & Hsent & _).
  rewrite Hsent by reflexivity. reflexivity.
Defined.

(** With the status [Open] the utterance is sent; on a closed socket
    nothing is. *)
Example sendText_scenario :
  Controller.sent
    (Controller.run [Controller.Start;
                     Controller.StateChanged Controller.ConnectedState;
                     Controller.SocketConnected;
                     Controller.SendText "hello"])
  = [Controller.utterance "hello"] ∧
  Controller.sent (Controller.run [Controller.Start; Controller.SendText "hello"]) = [].
Proof. split; reflexivity. Qed.

(** * Further properties of the code *)

(** ** What the conversion functions return *)

Lemma variantListToOrderedMap_from_rows data roleNames ordMap :
  (variantListToOrderedMap_from data roleNames ordMap).1
  = ordMap ++ (Variant.toMap <$> leadingObjects data).
Proof.
  revert roleNames ordMap.
  induction data as [|item rest IH]; intros roleNames ordMap; simpl.
  { by rewrite app_nil_r. }
  destruct (Variant.canConvertMap item); simpl; [|by rewrite app_nil_r].
  destruct (if bool_decide (roleNames = []) then _ else _) as [rn w].
  specialize (IH rn (ordMap ++ [Variant.toMap item])).
  destruct (variantListToOrderedMap_from rest rn _) as [r ws]; simpl in *.
  by rewrite IH, <- app_assoc.
Qed.

(** X1. The rows [variantListToOrderedMap] returns are the entries of the
    list up to the first one that is not an object, in order: the entries
    after it are dropped, the ones before it are kept. *)
Theorem variantListToOrderedMap_rows data :
  (variantListToOrderedMap data).1 = Variant.toMap <$> leadingObjects data.
Proof. unfold variantListToOrderedMap. by rewrite variantListToOrderedMap_from_rows. Qed.

Lemma variantListToOrderedMap_from_same_roles data roleNames ordMap K :
  roleNames = [] ∨ roleNames = K →
  (∀ item, item ∈ data →
     Variant.canConvertMap item = true ∧ Json.keys (Variant.toMap item) = K) →
  variantListToOrderedMap_from data roleNames ordMap
  = (ordMap ++ (Variant.toMap <$> data), []).
Proof.
  revert roleNames ordMap.
  induction data as [|item rest IH]; intros roleNames ordMap Hrn Hall; simpl.
  { by rewrite app_nil_r. }
  destruct (Hall item) as [Hobj Hkeys]; [by left|]. rewrite Hobj, Hkeys. simpl.
  assert ((if bool_decide (roleNames = []) then (K, [])
           else if bool_decide (roleNames ≠ K) then (roleNames, [warn_wrong_roles])
                else (roleNames, []))
          = (K, @nil string)) as ->.
  { destruct Hrn as [-> | ->]; [done|].
    destruct (bool_decide_reflect (K = [])); [done|].
    by rewrite bool_decide_eq_false_2 by (intros Hne; by apply Hne). }
  rewrite (IH K (ordMap ++ [Variant.toMap item])).
  - by rewrite <- app_assoc.
  - by right.
  - intros item' Hin. apply Hall. by right.
Qed.

(** X2. A list of objects that all have the same field names converts to
    exactly those objects, in order, and nothing is reported. *)
Theorem variantListToOrderedMap_same_roles data K :
  (∀ item, item ∈ data →
     Variant.canConvertMap item = true ∧ Json.keys (Variant.toMap item) = K) →
  variantListToOrderedMap data = (Variant.toMap <$> data, []).
Proof.
  intros Hall. unfold variantListToOrderedMap.
  rewrite (variantListToOrderedMap_from_same_roles data [] [] K); [done|by left|done].
Qed.

Lemma variantListToOrderedMap_same_roles_witness :
  variantListToOrderedMap [VMap [("day", VString "Mon")]; VMap [("day", VString "Tue")]]
  = ([[("day", VString "Mon")]; [("day", VString "Tue")]], []).
Proof.
  apply (variantListToOrderedMap_same_roles
           [VMap [("day", VString "Mon")]; VMap [("day", VString "Tue")]] ["day"]).
  intros item Hin. apply elem_of_cons in Hin as [->|Hin]; [done|].
  apply list_elem_of_singleton in Hin as ->. done.
Defined.

Lemma variantListToOrderedMap_from_wrong_roles data K ordMap :
  K ≠ [] →
  (∀ item, item ∈ data → Variant.canConvertMap item = true) →
  (∃ item, item ∈ data ∧ Json.keys (Variant.toMap item) ≠ K) →
  warn_wrong_roles ∈ (variantListToOrderedMap_from data K ordMap).2.
Proof.
  intros HK. revert ordMap.
  induction data as [|item rest IH]; intros ordMap Hall [bad [Hin Hbad]].
  { by apply elem_of_nil in Hin. }
  simpl. rewrite (Hall item) by (by left). simpl.
  rewrite (bool_decide_eq_false_2 (K = [])) by done.
  destruct (bool_decide_reflect (K ≠ Json.keys (Variant.toMap item))) as [Hne|Heq].
  - destruct (variantListToOrderedMap_from rest K _) as [r ws]. simpl. by left.
  - apply elem_of_cons in Hin as [->|Hin].
    { exfalso. apply Heq. intros HKeq. by apply Hbad. }
    specialize (IH (ordMap ++ [Variant.toMap item])).
    destruct (variantListToOrderedMap_from rest K _) as [r ws]. simpl in *.
    apply IH; [|by eauto]. intros item' Hin'. apply Hall. by right.
Qed.

(** X3. A list of objects in which some object does not have the field
    names of the first one is reported as inconsistent and accepted all the
    same: every object of the list is among the rows. *)
Theorem variantListToOrderedMap_wrong_roles first rest :
  Json.keys (Variant.toMap first) ≠ [] →
  (∀ item, item ∈ first :: rest → Variant.canConvertMap item = true) →
  (∃ item, item ∈ rest ∧ Json.keys (Variant.toMap item) ≠ Json.keys (Variant.toMap first)) →
  (variantListToOrderedMap (first :: rest)).1 = Variant.toMap <$> first :: rest ∧
  warn_wrong_roles ∈ (variantListToOrderedMap (first :: rest)).2.
Proof.
  intros HK Hall Hbad. split.
  - unfold variantListToOrderedMap. rewrite variantListToOrderedMap_from_rows.
    rewrite app_nil_l. f_equal.
    assert (∀ l, (∀ item, item ∈ l → Variant.canConvertMap item = true) →
                 leadingObjects l = l) as Hlead.
    { induction l as [|x l IH]; intros Hl; simpl; [done|].
      rewrite (Hl x) by (by left). f_equal. apply IH. intros y Hy. apply Hl. by right. }
    by apply Hlead.
  - unfold variantListToOrderedMap. simpl. rewrite (Hall first) by (by left). simpl.
    pose proof (variantListToOrderedMap_from_wrong_roles rest
                  (Json.keys (Variant.toMap first)) [Variant.toMap first] HK) as Hw.
    destruct (variantListToOrderedMap_from rest _ _) as [r ws]. simpl in *.
    apply Hw; [|done]. intros item Hin. apply Hall. by right.
Qed.

Lemma variantListToOrderedMap_wrong_roles_witness :
  (variantListToOrderedMap
     [VMap [("day", VString "Mon")]; VMap [("temp", VDouble (inject_Z 3))]]).1
  = [[("day", VString "Mon")]; [("temp", VDouble (inject_Z 3))]] ∧
  warn_wrong_roles
  ∈ (variantListToOrderedMap
       [VMap [("day", VString "Mon")]; VMap [("temp", VDouble (inject_Z 3))]]).2.
Proof.
  apply (variantListToOrderedMap_wrong_roles
           (VMap [("day", VString "Mon")]) [VMap [("temp", VDouble (inject_Z 3))]]).
  - discriminate.
  - intros item Hin. apply elem_of_cons in Hin as [->|Hin]; [done|].
    apply list_elem_of_singleton in Hin as ->. done.
  - exists (VMap [("temp", VDouble (inject_Z 3))]). split; [by left|discriminate].
Defined.

Lemma jsonModelToStringList_from_single_key key (values : list QJsonValue) items :
  jsonModelToStringList_from key ((λ v, JObject [(key, v)]) <$> values) items
  = (items ++ (Json.toString <$> values),
     (λ _, warn_not_string) <$> filter (λ v, Json.isString v = false) values).
Proof.
  revert items. induction values as [|v values IH]; intros items; simpl.
  { by rewrite app_nil_r. }
  unfold Json.contains. simpl.
  rewrite (bool_decide_eq_true_2 (key ∈ [key])) by (by left). simpl.
  rewrite String.eqb_refl.
  change (list_fmap QJsonValue QJsonValue (λ v, JObject [(key, v)]) values)
    with ((λ v, JObject [(key, v)]) <$> values).
  rewrite IH. rewrite <- app_assoc. simpl. f_equal.
  destruct (Json.isString v) eqn:Hs; simpl.
  - by rewrite filter_cons_False by (rewrite Hs; discriminate).
  - by rewrite filter_cons_True by done.
Qed.

Lemma jsonModelToStringList_from_strings key (ids : list string) items :
  jsonModelToStringList_from key ((λ id, JObject [(key, JString id)]) <$> ids) items
  = (items ++ ids, []).
Proof.
  revert items. induction ids as [|id ids IH]; intros items; simpl.
  { by rewrite app_nil_r. }
  unfold Json.contains. simpl.
  rewrite (bool_decide_eq_true_2 (key ∈ [key])) by (by left). simpl.
  rewrite String.eqb_refl.
  change (list_fmap string QJsonValue (λ id, JObject [(key, JString id)]) ids)
    with ((λ id, JObject [(key, JString id)]) <$> ids).
  rewrite IH. by rewrite <- app_assoc.
Qed.

(** X4. Round trip: the array [{key: id}, ...] built from a list of
    identifiers converts back to that list, with nothing reported. *)
Theorem jsonModelToStringList_round_trip key (ids : list string) :
  jsonModelToStringList key (JArray ((λ id, JObject [(key, JString id)]) <$> ids))
  = (ids, []).
Proof.
  unfold jsonModelToStringList. simpl.
  by rewrite (jsonModelToStringList_from_strings key ids []).
Qed.

(** X5. A value under the key that is not a string does not make the array
    malformed: it is reported and contributes the empty identifier, so the
    result has one identifier per entry. *)
Theorem jsonModelToStringList_values key (values : list QJsonValue) :
  jsonModelToStringList key (JArray ((λ v, JObject [(key, v)]) <$> values))
  = (Json.toString <$> values,
     (λ _, warn_not_string) <$> filter (λ v, Json.isString v = false) values).
Proof.
  unfold jsonModelToStringList. simpl.
  by rewrite (jsonModelToStringList_from_single_key key values []).
Qed.

(** ** Frames the GUI slot does not act on *)

Lemma qWarnings_nil s : View.qWarnings [] s = s.
Proof. destruct s. unfold View.qWarnings. simpl. by rewrite app_nil_r. Qed.

Lemma dispatch_move engine doc s :
  Json.toString (Json.at_ doc "type") = type_move →
  onGuiSocketMessageReceived engine doc s = onSessionMove doc s.
Proof. intros H. by dispatch H. Qed.

Section Ignored.

Variable engine : string → QQmlComponent.
Variables (doc : QJsonDocument) (s : View.t).

Local Abbreviation type := (Json.toString (Json.at_ doc "type")).
Local Abbreviation namespace := (Json.toString (Json.at_ doc "namespace")).
Local Abbreviation s' := (onGuiSocketMessageReceived engine doc s).

(** X6. A frame with a type the slot does not know is ignored without a
    trace: the state is the same and nothing is reported.  So is a
    [mycroft.session.insert] or [mycroft.session.remove] whose namespace is
    not [mycroft.system.active_skills]. *)
Theorem unknown_frame_ignored :
  type ≠ "" → type ∉ plainTypes →
  (type = type_insert ∨ type = type_remove → namespace ≠ ns_active_skills) →
  s' = s.
Proof.
  intros Hne Hplain Hns. unfold onGuiSocketMessageReceived.
  rewrite typed_doc_not_empty by done.
  unfold plainTypes in Hplain. rewrite !not_elem_of_cons in Hplain.
  destruct Hplain as (H1 & H2 & H3 & H4 & H5 & _).
  rewrite (bool_decide_eq_false_2 (type = "")) by done.
  rewrite (bool_decide_eq_false_2 (type = type_set)) by done.
  rewrite (bool_decide_eq_false_2 (type = type_delete)) by done.
  rewrite (bool_decide_eq_false_2 (type = type_show)) by done.
  rewrite (bool_decide_eq_false_2 (type = type_move)) by done.
  rewrite (bool_decide_eq_false_2 (type = type_events)) by done.
  destruct (bool_decide_reflect (type = type_insert)) as [Hi|_]; simpl.
  { rewrite (bool_decide_eq_false_2 (namespace = ns_active_skills)) by auto.
    rewrite (bool_decide_eq_false_2 (type = type_remove)); [done|].
    rewrite Hi. discriminate. }
  destruct (bool_decide_reflect (type = type_remove)) as [Hr|_]; simpl; [|done].
  by rewrite (bool_decide_eq_false_2 (namespace = ns_active_skills)) by auto.
Qed.

(** X7. A frame without a usable type (a document that is not an object, no
    "type" member, a type that is not a string or is empty) changes nothing
    and is reported with one warning. *)
Theorem untyped_frame_reported :
  type = "" → ∃ w, s' = View.qWarning w s.
Proof.
  intros Ht. unfold onGuiSocketMessageReceived.
  destruct (Json.isEmpty doc); [by eauto|].
  rewrite (bool_decide_eq_true_2 (type = "")) by done. by eauto.
Qed.

End Ignored.

Lemma unknown_frame_ignored_witness :
  onGuiSocketMessageReceived Scenario.loads ExtraScenario.listFrame Scenario.forecast
  = Scenario.forecast ∧
  onGuiSocketMessageReceived Scenario.loads ExtraScenario.foreignInsert Scenario.forecast
  = Scenario.forecast.
Proof.
  split.
  - apply unknown_frame_ignored.
    + discriminate.
    + unfold plainTypes. rewrite !not_elem_of_cons.
      split_and!; try discriminate. apply not_elem_of_nil.
    + intros [H|H]; discriminate H.
  - apply unknown_frame_ignored.
    + discriminate.
    + unfold plainTypes. rewrite !not_elem_of_cons.
      split_and!; try discriminate. apply not_elem_of_nil.
    + intros _. discriminate.
Defined.

Lemma untyped_frame_reported_witness :
  ∃ w, onGuiSocketMessageReceived Scenario.loads ExtraScenario.noType Scenario.forecast
       = View.qWarning w Scenario.forecast.
Proof. apply untyped_frame_reported. reflexivity. Defined.

(** ** What a frame can do to the list of skills and to the session store *)

Lemma sessionDataForSkill_lookup id s id' :
  View.m_skillData (View.sessionDataForSkill id s).2 !! id' = View.m_skillData s !! id' ∨
  (id' = id ∧ View.m_skillData s !! id = None ∧ View.isActive s id = true ∧
   View.m_skillData (View.sessionDataForSkill id s).2 !! id = Some (View.next s)).
Proof.
  unfold View.sessionDataForSkill.
  destruct (View.m_skillData s !! id) as [map|] eqn:Hid; [by left|].
  destruct (View.isActive s id) eqn:Hact; [|by left]. simpl.
  destruct (decide (id' = id)) as [->|Hne].
  - right. by rewrite lookup_insert_eq.
  - left. by rewrite lookup_insert_ne.
Qed.

Lemma eraseSkillData_lookup position rows s id :
  View.m_skillData (foldl (eraseSkillData position) s rows) !! id = View.m_skillData s !! id ∨
  View.m_skillData (foldl (eraseSkillData position) s rows) !! id = None.
Proof.
  revert s. induction rows as [|i rows IH]; intros s; cbn [foldl]; [by left|].
  destruct (IH (eraseSkillData position s i)) as [-> | ->]; [|by right].
  unfold eraseSkillData.
  destruct (View.m_skillData s !! ActiveSkillsModel.data _ _) eqn:Hd; simpl; [|by left].
  destruct (decide (ActiveSkillsModel.data (View.m_activeSkillsModel s)
                      (position + Z.of_nat i) = id)) as [<-|Hne].
  - right. apply lookup_delete_eq.
  - left. by apply lookup_delete_ne.
Qed.

Section Footprint.

Variable engine : string → QQmlComponent.
Variables (doc : QJsonDocument) (s : View.t).

Local Abbreviation type := (Json.toString (Json.at_ doc "type")).
Local Abbreviation s' := (onGuiSocketMessageReceived engine doc s).

Lemma onSessionSet_model :
  View.m_activeSkillsModel (onSessionSet doc s) = View.m_activeSkillsModel s.
Proof.
  unfold onSessionSet. repeat case_match; try done.
  - rewrite setLoop_skills.
    match goal with H : View.sessionDataForSkill ?id s = _ |- _ =>
      pose proof (sessionDataForSkill_skills id s) as Hs; by rewrite H in Hs end.
  - match goal with H : View.sessionDataForSkill ?id s = _ |- _ =>
      pose proof (sessionDataForSkill_skills id s) as Hs; by rewrite H in Hs end.
Qed.

Lemma onSessionDelete_model :
  View.m_activeSkillsModel (onSessionDelete doc s) = View.m_activeSkillsModel s.
Proof.
  unfold onSessionDelete. repeat case_match; try done; simpl;
    match goal with H : View.sessionDataForSkill ?id s = _ |- _ =>
      pose proof (sessionDataForSkill_skills id s) as Hs; by rewrite H in Hs end.
Qed.

Lemma onEventsTriggered_model :
  View.m_activeSkillsModel (onEventsTriggered doc s) = View.m_activeSkillsModel s.
Proof. unfold onEventsTriggered. by repeat case_match. Qed.

(** X8. A [mycroft.session.set], a [mycroft.session.delete], a
    [mycroft.events.triggered] and every frame the slot does not act on
    leave the model of the active skills alone: after a frame whose type is
    not insert, remove, move or show, the list of skills and the registered
    delegates are what they were. *)
Theorem skills_model_untouched :
  type ≠ type_insert → type ≠ type_remove → type ≠ type_move → type ≠ type_show →
  View.m_activeSkillsModel s' = View.m_activeSkillsModel s.
Proof.
  intros Hi Hr Hm Hs. unfold onGuiSocketMessageReceived.
  rewrite (bool_decide_eq_false_2 (type = type_insert)) by done.
  rewrite (bool_decide_eq_false_2 (type = type_remove)) by done.
  rewrite (bool_decide_eq_false_2 (type = type_move)) by done.
  rewrite (bool_decide_eq_false_2 (type = type_show)) by done. simpl.
  repeat case_match; try done.
  - apply onSessionSet_model.
  - apply onSessionDelete_model.
  - apply onEventsTriggered_model.
Qed.

(** What a frame can do to the session data of one skill: leave it, create
    it for a skill that is active and has none, or erase it in a
    [mycroft.session.remove]. *)
Lemma skillData_footprint id :
  View.m_skillData s' !! id = View.m_skillData s !! id ∨
  (View.m_skillData s !! id = None ∧ View.isActive s id = true) ∨
  (type = type_remove ∧ View.m_skillData s' !! id = None).
Proof.
  assert (∀ k t0 o t,
            View.sessionDataForSkill k t0 = (o, t) →
            View.m_skillData t !! id = View.m_skillData t0 !! id ∨
            (View.m_skillData t0 !! id = None ∧ View.isActive t0 id = true)) as Hsd.
  { intros k t0 o t H. pose proof (sessionDataForSkill_lookup k t0 id) as Hl.
    rewrite H in Hl. simpl in Hl.
    destruct Hl as [Hl|(-> & Hnone & Hact & _)]; [by left|by right]. }
  unfold onGuiSocketMessageReceived. repeat case_match; try (by left).
  - (* set *)
    unfold onSessionSet. repeat case_match; try (by left);
      rewrite ?setLoop_skillData;
      match goal with H : View.sessionDataForSkill _ _ = _ |- _ =>
        destruct (Hsd _ _ _ _ H) as [Hl|Hl] end; [by left|by right; left|by left|by right; left].
  - (* delete *)
    unfold onSessionDelete. repeat case_match; try (by left); simpl;
      match goal with H : View.sessionDataForSkill _ _ = _ |- _ =>
        destruct (Hsd _ _ _ _ H) as [Hl|Hl] end; [by left|by right; left|by left|by right; left].
  - (* show *)
    unfold onGuiShow. repeat case_match; try (by left); simpl.
    match goal with H : View.sessionDataForSkill _ _ = _ |- _ =>
      destruct (Hsd _ _ _ _ H) as [Hl|Hl] end; [by left|by right; left].
  - (* insert *)
    unfold onSessionInsert. repeat case_match; by left.
  - (* remove *)
    unfold onSessionRemove. repeat case_match; try (by left). simpl.
    match goal with |- context [foldl (eraseSkillData ?p) s ?rows] =>
      destruct (eraseSkillData_lookup p rows s id) as [Hl|Hl] end; [by left|].
    right; right. split; [|done].
    match goal with H : bool_decide (type = type_remove) && _ = true |- _ =>
      apply andb_true_iff in H as [H _]; by apply bool_decide_eq_true in H end.
  - (* move *)
    unfold onSessionMove. repeat case_match; by left.
  - (* events *)
    unfold onEventsTriggered. repeat case_match; by left.
Qed.

(** X9. No frame creates session data for a skill that is not active:
    session data found after a frame was there before it, or belongs to a
    skill that was active when the frame arrived. *)
Theorem session_data_created_for_active_only id map :
  View.m_skillData s' !! id = Some map →
  View.m_skillData s !! id = Some map ∨
  (View.m_skillData s !! id = None ∧ View.isActive s id = true).
Proof.
  intros Hafter. destruct (skillData_footprint id) as [Heq|[Hnew|[_ Hnone]]].
  - left. by rewrite <- Heq.
  - by right.
  - congruence.
Qed.

(** X10. The session data object of a skill is never replaced by another
    one: after a frame the skill has the same object, unless the frame is a
    [mycroft.session.remove], which may erase it. *)
Theorem session_data_never_replaced id map :
  View.m_skillData s !! id = Some map →
  View.m_skillData s' !! id = Some map ∨
  (type = type_remove ∧ View.m_skillData s' !! id = None).
Proof.
  intros Hbefore. destruct (skillData_footprint id) as [Heq|[[Hnone _]|Hrem]].
  - left. by rewrite Heq.
  - congruence.
  - by right.
Qed.

End Footprint.

Lemma skills_model_untouched_witness :
  View.m_activeSkillsModel
    (onGuiSocketMessageReceived Scenario.loads SetScenario.rain Scenario.forecast)
  = View.m_activeSkillsModel Scenario.forecast.
Proof. apply skills_model_untouched; discriminate. Defined.

(** The delete for "weather", which is active and has no session data,
    creates session data for it. *)
Lemma session_data_created_for_active_only_witness :
  View.m_skillData Scenario.threeSkills !! "weather" = Some 0%nat ∨
  (View.m_skillData Scenario.threeSkills !! "weather" = None ∧
   View.isActive Scenario.threeSkills "weather" = true).
Proof.
  apply (session_data_created_for_active_only Scenario.loads DeleteScenario.early).
  vm_compute. reflexivity.
Defined.

Lemma session_data_never_replaced_witness :
  View.m_skillData
    (onGuiSocketMessageReceived Scenario.loads SetScenario.rain Scenario.forecast)
    !! "weather" = Some 0%nat ∨
  (Json.toString (Json.at_ SetScenario.rain "type") = type_remove ∧
   View.m_skillData
     (onGuiSocketMessageReceived Scenario.loads SetScenario.rain Scenario.forecast)
     !! "weather" = None).
Proof.
  apply session_data_never_replaced. vm_compute. reflexivity.
Defined.

(** ** The guards of move, insert and remove *)

Section ListFrames.

Variable engine : string → QQmlComponent.
Variables (doc : QJsonDocument) (s : View.t).

Local Abbreviation type := (Json.toString (Json.at_ doc "type")).
Local Abbreviation namespace := (Json.toString (Json.at_ doc "namespace")).
Local Abbreviation from := (Json.toInt (Json.at_ doc "from")).
Local Abbreviation to := (Json.toInt (Json.at_ doc "to")).
Local Abbreviation position := (Json.toInt (Json.at_ doc "position")).
Local Abbreviation itemsNumber := (Json.toInt (Json.at_ doc "items_number")).
Local Abbreviation model := (View.m_activeSkillsModel s).
Local Abbreviation rowCount := (ActiveSkillsModel.rowCount (View.m_activeSkillsModel s)).
Local Abbreviation s' := (onGuiSocketMessageReceived engine doc s).

(** X11. A [mycroft.session.move], whatever its namespace, is turned down
    with nothing but a warning exactly when [from] or [to] is outside
    [0, L-1] or the count is outside [1, L-from]; otherwise nothing is
    reported and the rows are handed to [moveRows]. *)
Theorem move_rejected_iff :
  type = type_move →
  ((∃ w, s' = View.qWarning w s) ↔
   ¬ (0 ≤ from ≤ rowCount - 1 ∧ 0 ≤ to ≤ rowCount - 1 ∧ 0 < itemsNumber ≤ rowCount - from)%Z) ∧
  ((0 ≤ from ≤ rowCount - 1 ∧ 0 ≤ to ≤ rowCount - 1 ∧ 0 < itemsNumber ≤ rowCount - from)%Z →
   s' = View.setActiveSkillsModel (ActiveSkillsModel.moveRows from itemsNumber to model) s).
Proof.
  intros Ht. rewrite dispatch_move by done. unfold onSessionMove.
  destruct ((from <? 0)%Z || _) eqn:Hf.
  { apply orb_true_iff in Hf as [Hf|Hf]; apply Z.ltb_lt in Hf.
    all: split; [split; [lia|by eauto]|lia]. }
  destruct ((to <? 0)%Z || _) eqn:Hto.
  { apply orb_true_iff in Hto as [Hto|Hto]; apply Z.ltb_lt in Hto.
    all: split; [split; [lia|by eauto]|lia]. }
  destruct ((itemsNumber <=? 0)%Z || _) eqn:Hn.
  { apply orb_true_iff in Hn as [Hn|Hn]; [apply Z.leb_le in Hn|apply Z.ltb_lt in Hn].
    all: split; [split; [lia|by eauto]|lia]. }
  apply orb_false_iff in Hf as [Hf1 Hf2]. apply orb_false_iff in Hto as [Ht1 Ht2].
  apply orb_false_iff in Hn as [Hn1 Hn2].
  apply Z.ltb_ge in Hf1, Hf2, Ht1, Ht2, Hn2. apply Z.leb_gt in Hn1.
  split; [|done]. split; [|intros H; exfalso; apply H; lia].
  intros [w Hw]. exfalso.
  apply (f_equal (λ t, length (View.warnings t))) in Hw. simpl in Hw.
  rewrite length_app in Hw. simpl in Hw. lia.
Qed.

(** X12. A [mycroft.session.insert] at a position in [0, L] whose data is a
    non-empty array of objects [{skill_id: id}] hands exactly those
    identifiers, in order, to [insertSkills] at that position; nothing is
    reported and nothing else changes.  A position outside [0, L] is turned
    down with a warning before the data is looked at. *)
Theorem insert_accepted (ids : list string) :
  type = type_insert → namespace = ns_active_skills →
  Json.at_ doc "data" = JArray (Scenario.skill <$> ids) →
  ((0 ≤ position ≤ rowCount)%Z → ids ≠ [] →
   s' = View.setActiveSkillsModel (ActiveSkillsModel.insertSkills position ids model) s) ∧
  (¬ (0 ≤ position ≤ rowCount)%Z →
   s' = View.qWarning "Invalid position in mycroft.session.insert" s).
Proof.
  intros Ht Hns Hdata. rewrite dispatch_insert by done. unfold onSessionInsert. split.
  - intros Hpos Hids.
    replace (position <? 0)%Z with false by lia.
    replace (rowCount <? position)%Z with false by lia. simpl.
    rewrite Hdata. unfold Scenario.skill.
    rewrite (jsonModelToStringList_from_strings "skill_id" ids []
             : jsonModelToStringList "skill_id"
                 (JArray ((λ id, JObject [("skill_id", JString id)]) <$> ids)) = (ids, [])).
    rewrite bool_decide_eq_false_2 by done. by rewrite qWarnings_nil.
  - intros Hpos.
    destruct ((position <? 0)%Z || _) eqn:Hp; [done|].
    apply orb_false_iff in Hp as [Hp1 Hp2]. apply Z.ltb_ge in Hp1, Hp2. lia.
Qed.

End ListFrames.

Lemma move_rejected_iff_witness :
  onGuiSocketMessageReceived Scenario.loads (ExtraScenario.moveMsg 0 2 1) Scenario.threeSkills
  = View.setActiveSkillsModel
      (ActiveSkillsModel.moveRows 0 1 2 (View.m_activeSkillsModel Scenario.threeSkills))
      Scenario.threeSkills.
Proof.
  destruct (move_rejected_iff Scenario.loads (ExtraScenario.moveMsg 0 2 1) Scenario.threeSkills
              eq_refl) as [_ Hok].
  apply Hok. vm_compute. intuition discriminate.
Defined.

Lemma insert_accepted_witness :
  onGuiSocketMessageReceived Scenario.loads (Scenario.insertMsg 1 ["clock"; "radio"])
    Scenario.threeSkills
  = View.setActiveSkillsModel
      (ActiveSkillsModel.insertSkills 1 ["clock"; "radio"]
         (View.m_activeSkillsModel Scenario.threeSkills))
      Scenario.threeSkills.
Proof.
  destruct (insert_accepted Scenario.loads (Scenario.insertMsg 1 ["clock"; "radio"])
              Scenario.threeSkills ["clock"; "radio"] eq_refl eq_refl eq_refl) as [Hok _].
  apply Hok; [|discriminate]. vm_compute. intuition discriminate.
Defined.

(** ** Row collections are updated in place *)

Lemma holds_mapAt s map key p :
  holds s map key p ↔ View.mapAt s map !! key = Some (VObject p).
Proof.
  unfold holds, View.mapAt. split.
  - intros [m [-> Hm]]. done.
  - destruct (View.maps s !! map) as [m|]; simpl; [by eauto|].
    by rewrite lookup_empty.
Qed.

Lemma toModel_holds s map key p :
  owns s →
  View.toModel s (SessionDataMap.value (View.mapAt s map) key) = Some p ↔ holds s map key p.
Proof.
  intros Ho. rewrite toModel_Some, holds_mapAt. unfold SessionDataMap.value. split.
  - intros [Hv _]. destruct (View.mapAt s map !! key) as [v|]; simpl in *; by subst.
  - intros Hm. rewrite Hm. split; [done|].
    eapply owns_live; [done|]. by apply holds_mapAt.
Qed.

Lemma owns_init : owns View.init.
Proof.
  split; intros ? ? ?; try intros ? ?; intros [m [Hm _]]; simpl in Hm;
    by rewrite lookup_empty in Hm.
Qed.

(** A step that creates no holder, drops no model and returns no address to
    [new] keeps the ownership discipline. *)
Lemma owns_mono s s' :
  (∀ map key p, holds s' map key p → holds s map key p) →
  (∀ p, is_Some (View.models s !! p) → is_Some (View.models s' !! p)) →
  (View.next s ≤ View.next s')%nat →
  owns s → owns s'.
Proof.
  intros Hh Hl Hn [Ha Hlive Hu]. split.
  - intros map key p H. apply Hh, Ha in H. lia.
  - intros map key p H. by apply Hl, (Hlive map key), Hh.
  - intros map key map' key' p H H'. apply (Hu map key map' key' p); by apply Hh.
Qed.

Lemma sessionDataForSkill_holds id s map key p :
  holds (View.sessionDataForSkill id s).2 map key p → holds s map key p.
Proof.
  unfold View.sessionDataForSkill.
  destruct (View.m_skillData s !! id); [done|].
  destruct (View.isActive s id); [|done]. simpl.
  intros [m [Hm Hk]]. simpl in Hm.
  destruct (decide (View.next s = map)) as [<-|Hne].
  - rewrite lookup_insert_eq in Hm. injection Hm as <-. by rewrite lookup_empty in Hk.
  - rewrite lookup_insert_ne in Hm by done. by exists m.
Qed.

Lemma sessionDataForSkill_next id s :
  (View.next s ≤ View.next (View.sessionDataForSkill id s).2)%nat ∧
  View.models (View.sessionDataForSkill id s).2 = View.models s.
Proof.
  unfold View.sessionDataForSkill.
  destruct (View.m_skillData s !! id); [done|].
  destruct (View.isActive s id); simpl; [|done]. split; [lia|done].
Qed.

Lemma sessionDataForSkill_owns id s : owns s → owns (View.sessionDataForSkill id s).2.
Proof.
  apply owns_mono.
  - apply sessionDataForSkill_holds.
  - intros p. by rewrite (proj2 (sessionDataForSkill_next id s)).
  - apply sessionDataForSkill_next.
Qed.

Ltac setProperty_rows_cases :=
  setProperty_cases;
  try match goal with
      | H : View.toModel (View.qWarnings _ _) _ = _ |- _ =>
          rewrite toModel_qWarnings, mapAt_qWarnings in H
      end.

Section SetPropertyRows.

Variables (map : nat) (s : View.t) (key : string) (value : QVariant).

Local Abbreviation s' := (setProperty map s (key, value)).
Local Abbreviation rows := ((variantListToOrderedMap (Variant.toList value)).1).

Hypothesis Howns : owns s.

Lemma setProperty_next : (View.next s ≤ View.next s')%nat.
Proof. setProperty_rows_cases; lia. Qed.

(** What a turn of the loop makes of the holders: a holder after the turn
    was one before it, or is the updated property holding a model obtained
    from [new]. *)
Lemma setProperty_holds m k p :
  (∀ q, value ≠ VObject q) →
  holds s' m k p →
  (holds s m k p ∧ (m ≠ map ∨ k ≠ key ∨ rows ≠ [])) ∨
  (m = map ∧ k = key ∧ p = View.next s ∧ rows ≠ [] ∧ ∀ q, ¬ holds s map key q).
Proof.
  intros Hval. rewrite !holds_mapAt.
  destruct (decide (m = map ∧ k = key)) as [[-> ->]|Hne].
  - unfold View.mapAt. setProperty_rows_cases.
    + destruct (View.maps s !! map) as [mm|] eqn:Hmm.
      * rewrite lookup_alter_eq, Hmm. simpl.
        unfold SessionDataMap.insertAndNotify. rewrite lookup_insert_eq.
        intros [= Hv]. by destruct (Hval p).
      * rewrite lookup_alter_eq, Hmm. simpl. by rewrite lookup_empty.
    + destruct (View.maps s !! map) as [mm|] eqn:Hmm.
      * rewrite lookup_alter_eq, Hmm. simpl.
        unfold SessionDataMap.insertAndNotify. rewrite lookup_insert_eq.
        intros [= Hv]. by destruct (Hval p).
      * rewrite lookup_alter_eq, Hmm. simpl. by rewrite lookup_empty.
    + intros H. left. split; [done|]. by right; right.
    + destruct (View.maps s !! map) as [mm|] eqn:Hmm.
      * rewrite lookup_alter_eq, Hmm. simpl.
        unfold SessionDataMap.insertAndNotify. rewrite lookup_insert_eq.
        intros [= <-]. right. split_and!; try done.
        intros q Hq. apply toModel_holds in Hq; [|done]. congruence.
      * rewrite lookup_alter_eq, Hmm. simpl. by rewrite lookup_empty.
  - rewrite setProperty_other.
    + intros H. left. split; [done|].
      destruct (decide (m = map)) as [->|?]; [|by left].
      right; left. intros ->. by apply Hne.
    + destruct (decide (m = map)) as [->|?]; [|by left].
      right. intros ->. by apply Hne.
Qed.

Lemma setProperty_owns : (∀ q, value ≠ VObject q) → owns s'.
Proof.
  intros Hval. pose proof Howns as [Ha Hlive Hu]. split.
  - intros m k p H. destruct (setProperty_holds m k p Hval H) as [[H' _]|(_ & _ & -> & Hrows & Hno)].
    + apply Ha in H'. pose proof setProperty_next. lia.
    + revert Hrows. setProperty_rows_cases; intros Hr; simpl in Hr; try (by destruct Hr).
      * exfalso. apply (Hno dm). by apply toModel_holds.
      * simpl. lia.
  - intros m k p H. destruct (setProperty_holds m k p Hval H) as [[H' _]|(_ & _ & -> & Hrows & Hno)].
    + by apply setProperty_model_live, (Hlive m k).
    + revert Hrows. setProperty_rows_cases; intros Hr; simpl in Hr; try (by destruct Hr).
      * exfalso. apply (Hno dm). by apply toModel_holds.
      * rewrite lookup_alter_eq, lookup_insert_eq. simpl. eauto.
  - intros m k m2 k2 p H H2.
    destruct (setProperty_holds m k p Hval H) as [[H' _]|(-> & -> & Hp & _ & _)];
      destruct (setProperty_holds m2 k2 p Hval H2) as [[H2' _]|(-> & -> & Hp2 & _ & _)];
      try done.
    + by apply (Hu m k m2 k2 p).
    + subst p. apply Ha in H'. lia.
    + subst p. apply Ha in H2'. lia.
Qed.

(** The model another property holds is left alone by the turn. *)
Lemma setProperty_model_other m k p :
  holds s m k p → m ≠ map ∨ k ≠ key →
  View.models s' !! p = View.models s !! p ∧
  ∃ l, View.deleted s' = View.deleted s ++ l ∧ p ∉ l.
Proof.
  intros H Hne. pose proof Howns as [Ha Hlive Hu].
  assert (∀ dm, holds s map key dm → dm ≠ p) as Hdiff.
  { intros dm Hdm ->. destruct (Hu map key m k p Hdm H) as [-> ->]. by destruct Hne. }
  setProperty_rows_cases.
  - apply toModel_holds in Hdm; [|done]. apply Hdiff in Hdm. split; [done|].
    exists [dm]. split; [done|]. by apply not_elem_of_cons; split; [|apply not_elem_of_nil].
  - split; [done|]. exists []. rewrite app_nil_r. split; [done|]. apply not_elem_of_nil.
  - apply toModel_holds in Hdm; [|done]. apply Hdiff in Hdm.
    rewrite !lookup_alter_ne by done. split; [done|].
    exists []. rewrite app_nil_r. split; [done|]. apply not_elem_of_nil.
  - apply Ha in H. rewrite lookup_alter_ne, lookup_insert_ne by lia. split; [done|].
    exists []. rewrite app_nil_r. split; [done|]. apply not_elem_of_nil.
Qed.

(** A value that converts to rows: the property holds a model with exactly
    these rows, the model it held before if there was one, which is not
    handed to [deleteLater]. *)
Lemma setProperty_rows :
  is_Some (View.maps s !! map) → rows ≠ [] →
  ∃ dm, holds s' map key dm ∧
        View.models s' !! dm = Some rows ∧
        View.deleted s' = View.deleted s ∧
        (holds s map key dm ∨ ((∀ q, ¬ holds s map key q) ∧ dm = View.next s)).
Proof.
  intros [mm Hmm] Hrows. pose proof Howns as [Ha Hlive Hu]. revert Hrows.
  setProperty_rows_cases; intros Hr; simpl in Hr; try (by destruct Hr).
  - apply toModel_holds in Hdm; [|done]. exists dm. split_and!.
    + exact Hdm.
    + destruct (Hlive _ _ _ Hdm) as [old Hold].
      rewrite lookup_alter_eq, lookup_alter_eq, Hold. simpl.
      unfold SessionDataModel.insertData, SessionDataModel.clear. simpl.
      by rewrite app_nil_r.
    + done.
    + by left.
  - exists (View.next s). split_and!.
    + apply holds_mapAt. unfold View.mapAt. simpl.
      rewrite lookup_alter_eq, Hmm. simpl.
      unfold SessionDataMap.insertAndNotify. by rewrite lookup_insert_eq.
    + rewrite lookup_alter_eq, lookup_insert_eq. simpl.
      unfold SessionDataModel.insertData. simpl. by rewrite app_nil_r.
    + done.
    + right. split; [|done]. intros q Hq. apply toModel_holds in Hq; [|done]. congruence.
Qed.

(** What the turn hands to [deleteLater] was allocated before it. *)
Lemma setProperty_deleted_allocated :
  ∃ l, View.deleted s' = View.deleted s ++ l ∧ ∀ q, q ∈ l → (q < View.next s)%nat.
Proof.
  pose proof Howns as [Ha Hlive Hu]. setProperty_rows_cases.
  - apply toModel_holds in Hdm; [|done]. exists [dm]. split; [done|].
    intros q Hq. apply list_elem_of_singleton in Hq as ->. by eapply Ha.
  - exists []. rewrite app_nil_r. split; [done|]. intros q Hq. by apply elem_of_nil in Hq.
  - exists []. rewrite app_nil_r. split; [done|]. intros q Hq. by apply elem_of_nil in Hq.
  - exists []. rewrite app_nil_r. split; [done|]. intros q Hq. by apply elem_of_nil in Hq.
Qed.

End SetPropertyRows.

Lemma frame_value_not_object j key value :
  (key, value) ∈ Variant.toMap (Json.toVariant j) → ∀ q, value ≠ VObject q.
Proof.
  destruct j; simpl; try (intros H; by apply elem_of_nil in H).
  intros [[k v] [[= -> ->] _]]%list_elem_of_fmap q. simpl. by destruct v.
Qed.

Section SetLoopRows.

Variable map : nat.

Local Abbreviation loop s data := (foldl (setProperty map) s data).

Lemma setLoop_next data s : (View.next s ≤ View.next (loop s data))%nat.
Proof.
  revert s. induction data as [|[k v] data IH]; intros s; cbn [foldl]; [done|].
  etrans; [|apply IH]. apply setProperty_next.
Qed.

Lemma setLoop_owns data s :
  owns s → (∀ k v, (k, v) ∈ data → ∀ q, v ≠ VObject q) → owns (loop s data).
Proof.
  revert s. induction data as [|[k v] data IH]; intros s Ho Hval; cbn [foldl]; [done|].
  apply IH.
  - apply setProperty_owns; [done|]. apply (Hval k). by left.
  - intros k' v' Hin. apply (Hval k'). by right.
Qed.

Lemma setLoop_holds_other data s m k p :
  m ≠ map ∨ k ∉ Json.keys data → holds (loop s data) m k p ↔ holds s m k p.
Proof. intros Hne. by rewrite !holds_mapAt, setLoop_other. Qed.

(** The loop leaves alone the models of the properties it does not
    update. *)
Lemma setLoop_model_other data s m k p :
  owns s → (∀ k v, (k, v) ∈ data → ∀ q, v ≠ VObject q) →
  holds s m k p → m ≠ map ∨ k ∉ Json.keys data →
  View.models (loop s data) !! p = View.models s !! p ∧
  ∃ l, View.deleted (loop s data) = View.deleted s ++ l ∧ p ∉ l.
Proof.
  revert s. induction data as [|[k' v'] data IH]; intros s Ho Hval Hh Hne; cbn [foldl].
  { split; [done|]. exists []. rewrite app_nil_r. split; [done|]. apply not_elem_of_nil. }
  assert (m ≠ map ∨ k ≠ k') as Hne1.
  { destruct Hne as [?|Hk]; [by left|right]. intros ->. apply Hk. simpl. by left. }
  assert (m ≠ map ∨ k ∉ Json.keys data) as Hne2.
  { destruct Hne as [?|Hk]; [by left|right]. intros Hin. apply Hk. simpl. by right. }
  destruct (setProperty_model_other map s k' v' Ho m k p Hh Hne1) as [Hm1 [l1 [Hd1 Hl1]]].
  destruct (IH (setProperty map s (k', v'))) as [Hm2 [l2 [Hd2 Hl2]]]; try done.
  - apply setProperty_owns; [done|]. apply (Hval k'). by left.
  - intros k2 v2 Hin. apply (Hval k2). by right.
  - apply holds_mapAt. rewrite setProperty_other by done. by apply holds_mapAt.
  - split; [by rewrite Hm2|]. exists (l1 ++ l2). rewrite Hd2, Hd1, app_assoc.
    split; [done|]. intros [?|?]%elem_of_app; done.
Qed.

(** A property of the update whose value converts to rows ends up holding a
    model with exactly these rows: the model it held before the update, or,
    when it held none, one obtained from [new] during the update.  The
    model is not among what the update hands to [deleteLater]. *)
Lemma setLoop_rows data s key value :
  owns s → (∀ k v, (k, v) ∈ data → ∀ q, v ≠ VObject q) →
  is_Some (View.maps s !! map) →
  NoDup (Json.keys data) → (key, value) ∈ data →
  (variantListToOrderedMap (Variant.toList value)).1 ≠ [] →
  ∃ dm, holds (loop s data) map key dm ∧
        View.models (loop s data) !! dm
        = Some (variantListToOrderedMap (Variant.toList value)).1 ∧
        (∃ l, View.deleted (loop s data) = View.deleted s ++ l ∧ dm ∉ l) ∧
        (holds s map key dm ∨ ((∀ q, ¬ holds s map key q) ∧ (View.next s ≤ dm)%nat)).
Proof.
  revert s. induction data as [|[k v] data IH]; intros s Ho Hval Hlive Hnd Hin Hrows.
  { by apply elem_of_nil in Hin. }
  simpl in Hnd. apply NoDup_cons in Hnd as [Hk Hnd]. cbn [foldl].
  assert (owns (setProperty map s (k, v))) as Ho1.
  { apply setProperty_owns; [done|]. apply (Hval k). by left. }
  assert (∀ k2 v2, (k2, v2) ∈ data → ∀ q, v2 ≠ VObject q) as Hval1.
  { intros k2 v2 Hin2. apply (Hval k2). by right. }
  apply elem_of_cons in Hin as [[= <- <-]|Hin].
  - destruct (setProperty_rows map s key value Ho Hlive Hrows) as (dm & Hh & Hm & Hd & Horigin).
    destruct (setLoop_model_other data (setProperty map s (key, value)) map key dm)
      as [Hm2 [l [Hd2 Hl]]]; try done; [by right|].
    exists dm. split_and!.
    + apply setLoop_holds_other; [by right|done].
    + by rewrite Hm2.
    + exists l. by rewrite Hd2, Hd.
    + destruct Horigin as [?|[? ->]]; [by left|by right].
  - assert (k ≠ key) as Hne.
    { intros ->. apply Hk. apply list_elem_of_fmap. by exists (key, value). }
    destruct (IH (setProperty map s (k, v))) as (dm & Hh & Hm & [l2 [Hd2 Hl2]] & Horigin);
      try done.
    { by apply setProperty_live. }
    assert (∀ q, holds (setProperty map s (k, v)) map key q ↔ holds s map key q) as Hsame.
    { intros q. rewrite !holds_mapAt, setProperty_other; [done|]. right. congruence. }
    exists dm. split_and!; try done.
    + destruct Horigin as [Hold|[Hnone Hnew]].
      * apply Hsame in Hold.
        destruct (setProperty_model_other map s k v Ho map key dm Hold) as [_ [l1 [Hd1 Hl1]]].
        { right. congruence. }
        exists (l1 ++ l2). rewrite Hd2, Hd1, app_assoc. split; [done|].
        intros [?|?]%elem_of_app; done.
      * destruct (setProperty_deleted_allocated map s k v Ho) as [l1 [Hd1 Hl1]].
        exists (l1 ++ l2). rewrite Hd2, Hd1, app_assoc. split; [done|].
        intros [Hq|?]%elem_of_app; [|done]. apply Hl1 in Hq.
        pose proof (setProperty_next map s k v). lia.
    + destruct Horigin as [Hold|[Hnone Hnew]].
      * left. by apply Hsame.
      * right. split.
        -- intros q Hq. apply (Hnone q). by apply Hsame.
        -- pose proof (setProperty_next map s k v). lia.
Qed.

End SetLoopRows.

Lemma eraseSkillData_heap position rows s :
  View.maps (foldl (eraseSkillData position) s rows) = View.maps s ∧
  View.models (foldl (eraseSkillData position) s rows) = View.models s ∧
  View.next (foldl (eraseSkillData position) s rows) = View.next s.
Proof.
  revert s. induction rows as [|i rows IH]; intros s; cbn [foldl]; [done|].
  destruct (IH (eraseSkillData position s i)) as (-> & -> & ->).
  unfold eraseSkillData. by destruct (View.m_skillData s !! ActiveSkillsModel.data _ _).
Qed.

Section OwnsInvariant.

Variable engine : string → QQmlComponent.
Variables (doc : QJsonDocument) (s : View.t).
Hypothesis Howns : owns s.

(** A step that leaves the objects alone keeps the discipline. *)
Lemma owns_same_heap t :
  View.maps t = View.maps s → View.models t = View.models s →
  (View.next s ≤ View.next t)%nat → owns t.
Proof.
  intros Hm Hd Hn. apply (owns_mono s); try done.
  - intros map key p [m [H1 H2]]. exists m. by rewrite <- Hm.
  - intros p. by rewrite Hd.
Qed.

Lemma onSessionSet_owns : owns (onSessionSet doc s).
Proof.
  unfold onSessionSet. repeat case_match; try (by apply owns_same_heap).
  - apply setLoop_owns.
    + match goal with H : View.sessionDataForSkill ?id s = _ |- _ =>
        pose proof (sessionDataForSkill_owns id s Howns) as Hs; by rewrite H in Hs end.
    + intros k v Hin. by eapply frame_value_not_object.
  - match goal with H : View.sessionDataForSkill ?id s = _ |- _ =>
      pose proof (sessionDataForSkill_owns id s Howns) as Hs; by rewrite H in Hs end.
Qed.

Lemma onSessionDelete_owns : owns (onSessionDelete doc s).
Proof.
  unfold onSessionDelete. repeat case_match; try (by apply owns_same_heap).
  - match goal with H : View.sessionDataForSkill ?id s = _ |- _ =>
      pose proof (sessionDataForSkill_owns id s Howns) as Hs; rewrite H in Hs end.
    simpl in Hs. revert Hs. apply owns_mono; simpl; try done.
    intros map key p [m [Hm Hk]]. simpl in Hm. apply holds_mapAt.
    match goal with H : SessionDataMap.clearAndNotify _ _ = _ |- _ =>
      unfold SessionDataMap.clearAndNotify in H; revert H end.
    match goal with |- context [View.mapAt ?t ?n] => set (old := View.mapAt t n) end.
    intros Hclear.
    match type of Hm with (<[?n := _]> _ !! _ = _) =>
      destruct (decide (n = map)) as [->|Hne] end.
    + rewrite lookup_insert_eq in Hm. injection Hm as ->.
      destruct (old !! _) eqn:Hold; injection Hclear as <- _; [|done].
      by apply lookup_delete_Some in Hk as [_ Hk].
    + rewrite lookup_insert_ne in Hm by done. unfold View.mapAt. by rewrite Hm.
  - match goal with H : View.sessionDataForSkill ?id s = _ |- _ =>
      pose proof (sessionDataForSkill_owns id s Howns) as Hs; by rewrite H in Hs end.
Qed.

Lemma onGuiShow_owns : owns (onGuiShow engine doc s).
Proof.
  unfold onGuiShow. repeat case_match; try (by apply owns_same_heap).
  match goal with H : View.sessionDataForSkill ?id ?t = _ |- _ =>
    assert (owns t) as Ho by (apply owns_same_heap; simpl; [done|done|lia]);
    pose proof (sessionDataForSkill_owns id t Ho) as Hs; rewrite H in Hs end.
  simpl in Hs. revert Hs. by apply owns_mono.
Qed.

Lemma onGuiSocketMessageReceived_owns : owns (onGuiSocketMessageReceived engine doc s).
Proof.
  unfold onGuiSocketMessageReceived.
  repeat case_match; try (by apply owns_same_heap);
    auto using onSessionSet_owns, onSessionDelete_owns, onGuiShow_owns.
  - unfold onSessionInsert. repeat case_match; by apply owns_same_heap.
  - unfold onSessionRemove. repeat case_match; try (by apply owns_same_heap).
    match goal with |- context [foldl (eraseSkillData ?p) s ?rows] =>
      destruct (eraseSkillData_heap p rows s) as (Hm & Hd & Hn) end.
    apply owns_same_heap; simpl; [done|done|lia].
  - unfold onSessionMove. repeat case_match; by apply owns_same_heap.
  - unfold onEventsTriggered. repeat case_match; by apply owns_same_heap.
Qed.

End OwnsInvariant.

(** In every state the view reaches, no two properties share a
    row-collection model. *)
Lemma run_owns engine frames : owns (Scenario.run engine frames).
Proof.
  unfold Scenario.run. generalize owns_init. generalize View.init.
  induction frames as [|doc frames IH]; intros s Ho; cbn [foldl]; [done|].
  apply IH. by apply onGuiSocketMessageReceived_owns.
Qed.

Section RowsInPlace.

Variable engine : string → QQmlComponent.
Variables (doc : QJsonDocument) (s : View.t).

Local Abbreviation type := (Json.toString (Json.at_ doc "type")).
Local Abbreviation skill := (Json.toString (Json.at_ doc "namespace")).
Local Abbreviation data := (Variant.toMap (Json.toVariant (Json.at_ doc "data"))).
Local Abbreviation s' := (onGuiSocketMessageReceived engine doc s).

(** X13. In an accepted [mycroft.session.set], a property whose value
    converts to rows, that is an array that starts with an object, ends up
    holding a row-collection model with exactly the converted rows.  When
    the property held a model before, it is that same model, updated in
    place; otherwise the model is a new one.  The model is not handed to
    [deleteLater] by the update, whatever the other properties of the frame
    are. *)
Theorem set_rows_in_place (key : string) (value : QVariant) :
  type = type_set → wf s → owns s → skill ≠ "" → View.isActive s skill = true →
  NoDup (Json.keys data) → (key, value) ∈ data →
  (variantListToOrderedMap (Variant.toList value)).1 ≠ [] →
  ∃ map dm,
    View.m_skillData s' !! skill = Some map ∧
    View.mapAt s' map !! key = Some (VObject dm) ∧
    View.models s' !! dm = Some (variantListToOrderedMap (Variant.toList value)).1 ∧
    (∃ l, View.deleted s' = View.deleted s ++ l ∧ dm ∉ l) ∧
    (∀ old dm0, View.m_skillData s !! skill = Some old →
                View.mapAt s old !! key = Some (VObject dm0) → dm = dm0) ∧
    ((∀ old dm0, View.m_skillData s !! skill = Some old →
                 View.mapAt s old !! key ≠ Some (VObject dm0)) →
     (View.next s ≤ dm)%nat).
Proof.
  intros Ht Hwf Ho Hid Hact Hnd Hin Hrows.
  destruct (onSessionSet_accepted engine doc s) as (map & s1 & Hsd & Hmap & Hlive & ->);
    try done.
  { intros Hd. rewrite Hd in Hin. by apply elem_of_nil in Hin. }
  pose proof (sessionDataForSkill_owns skill s Ho) as Ho1.
  pose proof (sessionDataForSkill_next skill s) as [Hn1 _].
  assert (View.deleted s1 = View.deleted s) as Hdel1.
  { revert Hsd. unfold View.sessionDataForSkill.
    destruct (View.m_skillData s !! skill); [by intros [= _ <-]|].
    destruct (View.isActive s skill); by intros [= _ <-]. }
  pose proof (λ m k p, sessionDataForSkill_holds skill s m k p) as Hback.
  rewrite Hsd in Ho1, Hn1, Hback. simpl in Ho1, Hn1, Hback.
  destruct (setLoop_rows map data s1 key value) as (dm & Hh & Hm & [l [Hd Hl]] & Horigin);
    try done.
  { intros k v Hkv. by eapply frame_value_not_object. }
  exists map, dm. rewrite setLoop_skillData. split_and!; try done.
  - by apply holds_mapAt.
  - exists l. by rewrite Hd, Hdel1.
  - intros old dm0 Hold Hkey.
    rewrite (sessionDataForSkill_existing _ _ _ Hold) in Hsd. injection Hsd as <- <-.
    destruct Horigin as [Hheld|[Hnone _]].
    + apply holds_mapAt in Hheld. congruence.
    + exfalso. apply (Hnone dm0). by apply holds_mapAt.
  - intros Hnone. destruct Horigin as [Hheld|[_ Hnew]]; [|lia].
    apply Hback in Hheld. exfalso.
    destruct (View.m_skillData s !! skill) as [old|] eqn:Hold.
    + rewrite (sessionDataForSkill_existing _ _ _ Hold) in Hsd. injection Hsd as <- <-.
      apply (Hnone old dm); [done|]. by apply holds_mapAt.
    + revert Hsd. unfold View.sessionDataForSkill. rewrite Hold, Hact. intros [= <- _].
      destruct Hheld as [m [Hm' _]]. by rewrite (wf_fresh_map s Hwf) in Hm'.
Qed.

End RowsInPlace.

(** The forecast of "weather" is replaced by one row: the model is the one
    it had, with the new row. *)
Lemma set_rows_in_place_witness :
  ∃ map dm,
    View.m_skillData
      (onGuiSocketMessageReceived Scenario.loads ExtraScenario.wednesday Scenario.forecast)
      !! "weather" = Some map ∧
    View.mapAt
      (onGuiSocketMessageReceived Scenario.loads ExtraScenario.wednesday Scenario.forecast)
      map !! "forecast" = Some (VObject dm) ∧
    View.models
      (onGuiSocketMessageReceived Scenario.loads ExtraScenario.wednesday Scenario.forecast)
      !! dm = Some [[("day", VString "Wed")]] ∧
    dm = 1%nat.
Proof.
  destruct (set_rows_in_place Scenario.loads ExtraScenario.wednesday Scenario.forecast
              "forecast" (VList [VMap [("day", VString "Wed")]])
              eq_refl (run_wf _ _) (run_owns _ _) ltac:(discriminate) eq_refl
              (NoDup_singleton _) ltac:(by left) ltac:(discriminate))
    as (map & dm & H1 & H2 & H3 & _ & H5 & _).
  exists map, dm. split_and!; [exact H1|exact H2|exact H3|].
  apply (H5 0%nat 1%nat); vm_compute; reflexivity.
Defined.

(** ** What a new delegate is bound to *)

Section ShowBinding.

Variable engine : string → QQmlComponent.
Variables (doc : QJsonDocument) (s : View.t).

Local Abbreviation type := (Json.toString (Json.at_ doc "type")).
Local Abbreviation skill := (Json.toString (Json.at_ doc "namespace")).
Local Abbreviation url := (Json.toString (Json.at_ doc "gui_url")).
Local Abbreviation model := (View.m_activeSkillsModel s).
Local Abbreviation s' := (onGuiSocketMessageReceived engine doc s).

(** X14. [mycroft.gui.show] does not ask whether the skill is active.  For a
    skill that is not active and has no session data, a template that
    loads gives a delegate with a null session data pointer; it is
    registered and asked to become current, and no session data is
    created. *)
Theorem show_inactive_skill :
  type = type_show → skill ≠ "" → url ≠ "" →
  View.isActive s skill = false → View.m_skillData s !! skill = None →
  ActiveSkillsModel.delegateForSkill model skill url = None →
  errors (engine url) = [] → guiObject (engine url) = DelegateObject →
  s' = View.emit (CurrentRequested (View.next s))
         (View.setActiveSkillsModel
            (ActiveSkillsModel.insertDelegate (mkDelegate (View.next s) skill url None) model)
            (View.setNext (S (View.next s)) s)).
Proof.
  intros Ht Hskill Hurl Hact Hnone Hd Herr Hobj. rewrite dispatch_show by done.
  destruct (onGuiShow_created engine doc s Hskill Hurl Hd Herr Hobj) as (map & s0 & Hsd & -> & _).
  revert Hsd. unfold View.sessionDataForSkill. simpl. rewrite Hnone.
  change (View.isActive (View.setNext (S (View.next s)) s) skill) with (View.isActive s skill).
  rewrite Hact. by intros [= <- <-].
Qed.

(** X15. For an active skill, the delegate that [mycroft.gui.show] creates
    and hands to [insertDelegate] is bound to the session data object of
    its skill: the one the skill has already, with every object as it was,
    or a new, empty one that is registered for the skill. *)
Theorem show_binds_session_data :
  type = type_show → wf s → skill ≠ "" → url ≠ "" →
  View.isActive s skill = true →
  ActiveSkillsModel.delegateForSkill model skill url = None →
  errors (engine url) = [] → guiObject (engine url) = DelegateObject →
  ∃ map s0,
    s' = View.emit (CurrentRequested (View.next s))
           (View.setActiveSkillsModel
              (ActiveSkillsModel.insertDelegate
                 (mkDelegate (View.next s) skill url (Some map)) model)
              s0) ∧
    View.m_skillData s' !! skill = Some map ∧
    is_Some (View.maps s' !! map) ∧
    (∀ old, View.m_skillData s !! skill = Some old →
            map = old ∧ View.maps s' = View.maps s) ∧
    (View.m_skillData s !! skill = None → View.mapAt s' map = ∅).
Proof.
  intros Ht Hwf Hskill Hurl Hact Hd Herr Hobj. rewrite dispatch_show by done.
  destruct (onGuiShow_created engine doc s Hskill Hurl Hd Herr Hobj) as (map & s0 & Hsd & -> & _).
  revert Hsd. unfold View.sessionDataForSkill. simpl.
  change (View.isActive (View.setNext (S (View.next s)) s) skill) with (View.isActive s skill).
  rewrite Hact.
  destruct (View.m_skillData s !! skill) as [old|] eqn:Hold; intros [= <- <-].
  - exists old, (View.setNext (S (View.next s)) s). simpl in *.
    split_and!; try done.
    + by eapply wf_live.
    + by intros ? [= <-].
  - eexists (S (View.next s)), _. simpl in *. split_and!; try done.
    + by rewrite lookup_insert_eq.
    + rewrite lookup_insert_eq. eauto.
    + intros _. unfold View.mapAt. simpl. by rewrite lookup_insert_eq.
Qed.

End ShowBinding.

Lemma show_inactive_skill_witness :
  onGuiSocketMessageReceived Scenario.loads ExtraScenario.showRadio Scenario.threeSkills
  = View.emit (CurrentRequested 0)
      (View.setActiveSkillsModel
         (ActiveSkillsModel.insertDelegate
            (mkDelegate 0 "radio" "file:///radio/tuner.qml" None)
            (View.m_activeSkillsModel Scenario.threeSkills))
         (View.setNext 1 Scenario.threeSkills)).
Proof.
  apply (show_inactive_skill Scenario.loads ExtraScenario.showRadio Scenario.threeSkills);
    try reflexivity; discriminate.
Defined.

(** A show for "weather" after its forecast was set: the delegate is bound
    to the session data that holds the forecast. *)
Lemma show_binds_session_data_witness :
  ∃ map,
    ActiveSkillsModel.m_delegates
      (View.m_activeSkillsModel
         (onGuiSocketMessageReceived Scenario.loads ShowScenario.weather Scenario.forecast))
    = [mkDelegate 2 "weather" "file:///weather/forecast.qml" (Some map)] ∧
    View.m_skillData
      (onGuiSocketMessageReceived Scenario.loads ShowScenario.weather Scenario.forecast)
      !! "weather" = Some map ∧
    map = 0%nat.
Proof.
  destruct (show_binds_session_data Scenario.loads ShowScenario.weather Scenario.forecast
              eq_refl (run_wf _ _) ltac:(discriminate) ltac:(discriminate)
              eq_refl eq_refl eq_refl eq_refl) as (map & s0 & H1 & H2 & _ & H4 & _).
  exists map. split_and!; [|exact H2|].
  - rewrite H1. reflexivity.
  - apply (H4 0%nat). vm_compute. reflexivity.
Defined.

(** ** MycroftController: what the incoming frames do to the assistant state *)

Section AssistantStep.

Import Assistant.

Variables (doc : QJsonDocument) (c : Assistant.t).

Local Abbreviation type := (Json.toString (Json.at_ doc "type")).
Local Abbreviation c' := (onTextMessageReceived doc c).

Lemma recognised_split :
  type ∉ recognisedTypes ↔
  type ≠ type_intent_failure ∧ type ≠ type_audio_output_start ∧
  type ≠ type_audio_output_end ∧ type ≠ type_record_begin ∧ type ≠ type_record_end ∧
  type ≠ type_unknown ∧ type ≠ type_handler_start ∧ type ≠ type_handler_complete ∧
  type ≠ type_speak ∧ type ≠ type_metadata.
Proof.
  unfold recognisedTypes. rewrite !not_elem_of_cons. pose proof (not_elem_of_nil type).
  tauto.
Qed.

(** X16. A frame whose type is none of the ten the slot knows (a frame that
    did not parse or has no type included) changes nothing and emits
    nothing. *)
Theorem unrecognised_type_ignored :
  type ∉ recognisedTypes → c' = c.
Proof.
  intros H. apply recognised_split in H as (H1 & H2 & H3 & H4 & H5 & H6 & H7 & H8 & H9 & H10).
  unfold onTextMessageReceived. destruct (_ || _); [done|].
  by rewrite !bool_decide_eq_false_2 by done.
Qed.

Lemma step_listening_other :
  type ∉ listeningTypes → m_isListening c' = m_isListening c.
Proof.
  unfold listeningTypes. rewrite !not_elem_of_cons. intros (H1 & H2 & H3 & _).
  unfold onTextMessageReceived. destruct (_ || _); [done|].
  rewrite (bool_decide_eq_false_2 (type = type_intent_failure)) by done.
  rewrite (bool_decide_eq_false_2 (type = type_record_begin)) by done.
  rewrite (bool_decide_eq_false_2 (type = type_record_end)) by done.
  by repeat case_bool_decide.
Qed.

Lemma step_listening :
  type ∈ listeningTypes → m_isListening c' = bool_decide (type = type_record_begin).
Proof.
  unfold listeningTypes. rewrite !elem_of_cons. intros [H|[H|[H|H]]].
  - unfold onTextMessageReceived. rewrite H. reflexivity.
  - unfold onTextMessageReceived. rewrite H. reflexivity.
  - unfold onTextMessageReceived. rewrite H. reflexivity.
  - by apply elem_of_nil in H.
Qed.

Lemma step_speaking_other :
  type ∉ speakingTypes → m_isSpeaking c' = m_isSpeaking c.
Proof.
  unfold speakingTypes. rewrite !not_elem_of_cons. intros (H1 & H2 & _).
  unfold onTextMessageReceived. destruct (_ || _); [done|].
  rewrite (bool_decide_eq_false_2 (type = type_audio_output_start)) by done.
  rewrite (bool_decide_eq_false_2 (type = type_audio_output_end)) by done.
  by repeat case_bool_decide.
Qed.

Lemma step_speaking :
  type ∈ speakingTypes → m_isSpeaking c' = bool_decide (type = type_audio_output_start).
Proof.
  unfold speakingTypes. rewrite !elem_of_cons. intros [H|[H|H]].
  - unfold onTextMessageReceived. rewrite H. reflexivity.
  - unfold onTextMessageReceived. rewrite H. reflexivity.
  - by apply elem_of_nil in H.
Qed.

Lemma step_skill_other :
  type ∉ skillTypes → m_currentSkill c' = m_currentSkill c.
Proof.
  unfold skillTypes. rewrite !not_elem_of_cons. intros (H1 & H2 & _).
  unfold onTextMessageReceived. destruct (_ || _); [done|].
  rewrite (bool_decide_eq_false_2 (type = type_handler_start)) by done.
  rewrite (bool_decide_eq_false_2 (type = type_handler_complete)) by done.
  by repeat case_bool_decide.
Qed.

Lemma step_skill :
  type ∈ skillTypes →
  m_currentSkill c'
  = if bool_decide (type = type_handler_start)
    then Json.toString (valueAt (Json.at_ doc "data") "name") else "".
Proof.
  unfold skillTypes. rewrite !elem_of_cons. intros [H|[H|H]].
  - unfold onTextMessageReceived. rewrite H. reflexivity.
  - unfold onTextMessageReceived. rewrite H. reflexivity.
  - by apply elem_of_nil in H.
Qed.

Lemma step_speak :
  type = type_speak →
  emitted c'
  = emitted c ++ [FallbackTextRecieved (m_currentSkill c)
                    (Variant.toMap (Json.toVariant (Json.at_ doc "data")))].
Proof. intros H. unfold onTextMessageReceived. rewrite H. reflexivity. Qed.

End AssistantStep.

Section AssistantRun.

Import Assistant.

Variable c : Assistant.t.
Variables (pre : list QJsonDocument) (f : QJsonDocument) (post : list QJsonDocument).

Local Abbreviation typeOf doc := (Json.toString (Json.at_ doc "type")).

Lemma run_app frames frames' c0 : run c0 (frames ++ frames') = run (run c0 frames) frames'.
Proof. apply foldl_app. Qed.

Lemma run_preserves {A} (field : Assistant.t → A) (types : list string) :
  (∀ doc c0, typeOf doc ∉ types → field (onTextMessageReceived doc c0) = field c0) →
  ∀ frames c0, (∀ g, g ∈ frames → typeOf g ∉ types) → field (run c0 frames) = field c0.
Proof.
  intros Hstep. induction frames as [|g frames IH]; intros c0 Hall; [done|].
  unfold run in *. cbn [foldl]. rewrite IH.
  - apply Hstep, Hall. by left.
  - intros h Hh. apply Hall. by right.
Qed.

(** X17. [isListening] is decided by the last frame that is a record begin,
    a record end or an intent failure: it is true exactly when that frame
    is a record begin, whatever came before and whatever other frames
    came after. *)
Theorem listening_follows_last_frame :
  typeOf f ∈ listeningTypes → (∀ g, g ∈ post → typeOf g ∉ listeningTypes) →
  m_isListening (run c (pre ++ f :: post)) = bool_decide (typeOf f = type_record_begin).
Proof.
  intros Hf Hpost. rewrite run_app. unfold run at 1. cbn [foldl].
  fold (run (onTextMessageReceived f (run c pre)) post).
  rewrite (run_preserves m_isListening listeningTypes); [|apply step_listening_other|done].
  by apply step_listening.
Qed.

(** X18. [isSpeaking] is decided by the last frame that is an audio output
    start or end: it is true exactly when that frame is a start. *)
Theorem speaking_follows_last_frame :
  typeOf f ∈ speakingTypes → (∀ g, g ∈ post → typeOf g ∉ speakingTypes) →
  m_isSpeaking (run c (pre ++ f :: post)) = bool_decide (typeOf f = type_audio_output_start).
Proof.
  intros Hf Hpost. rewrite run_app. unfold run at 1. cbn [foldl].
  fold (run (onTextMessageReceived f (run c pre)) post).
  rewrite (run_preserves m_isSpeaking speakingTypes); [|apply step_speaking_other|done].
  by apply step_speaking.
Qed.

(** X19. A [speak] frame is passed on with the skill named by the last
    skill handler frame before it: the name in the data of a handler
    start, or the empty string after a handler complete. *)
Theorem speak_names_current_skill (g : QJsonDocument) :
  typeOf f ∈ skillTypes → (∀ h, h ∈ post → typeOf h ∉ skillTypes) →
  typeOf g = type_speak →
  last (emitted (run c (pre ++ f :: post ++ [g])))
  = Some (FallbackTextRecieved
            (if bool_decide (typeOf f = type_handler_start)
             then Json.toString (valueAt (Json.at_ f "data") "name") else "")
            (Variant.toMap (Json.toVariant (Json.at_ g "data")))).
Proof.
  intros Hf Hpost Hg.
  rewrite app_comm_cons, app_assoc, run_app. unfold run at 1. cbn [foldl].
  rewrite step_speak by done. rewrite last_snoc. f_equal. f_equal.
  rewrite run_app. unfold run at 1. cbn [foldl].
  fold (run (onTextMessageReceived f (run c pre)) post).
  rewrite (run_preserves m_currentSkill skillTypes); [|apply step_skill_other|done].
  by apply step_skill.
Qed.

End AssistantRun.

Lemma unrecognised_type_ignored_witness :
  Assistant.onTextMessageReceived (ExtraScenario.frame "enclosure.mouth.reset")
    ExtraScenario.quiet
  = ExtraScenario.quiet.
Proof.
  apply unrecognised_type_ignored.
  unfold Assistant.recognisedTypes. rewrite !not_elem_of_cons.
  split_and!; try discriminate. apply not_elem_of_nil.
Defined.

Lemma listening_follows_last_frame_witness :
  Assistant.m_isListening
    (Assistant.run ExtraScenario.quiet
       ([ExtraScenario.frame Assistant.type_record_end]
        ++ ExtraScenario.frame Assistant.type_record_begin
        :: [ExtraScenario.frame Assistant.type_audio_output_start;
            ExtraScenario.speak "it is noon"]))
  = true.
Proof.
  apply (listening_follows_last_frame ExtraScenario.quiet
           [ExtraScenario.frame Assistant.type_record_end]
           (ExtraScenario.frame Assistant.type_record_begin)
           [ExtraScenario.frame Assistant.type_audio_output_start;
            ExtraScenario.speak "it is noon"]).
  - right. by left.
  - intros g Hg. unfold Assistant.listeningTypes. rewrite !not_elem_of_cons.
    apply elem_of_cons in Hg as [->|Hg]; [|apply list_elem_of_singleton in Hg as ->];
      split_and!; try discriminate; apply not_elem_of_nil.
Defined.

Lemma speaking_follows_last_frame_witness :
  Assistant.m_isSpeaking
    (Assistant.run ExtraScenario.quiet
       ([ExtraScenario.frame Assistant.type_audio_output_start]
        ++ ExtraScenario.frame Assistant.type_audio_output_end
        :: [ExtraScenario.frame Assistant.type_record_begin]))
  = false.
Proof.
  apply (speaking_follows_last_frame ExtraScenario.quiet
           [ExtraScenario.frame Assistant.type_audio_output_start]
           (ExtraScenario.frame Assistant.type_audio_output_end)
           [ExtraScenario.frame Assistant.type_record_begin]).
  - right. by left.
  - intros g Hg. unfold Assistant.speakingTypes. rewrite !not_elem_of_cons.
    apply list_elem_of_singleton in Hg as ->.
    split_and!; try discriminate; apply not_elem_of_nil.
Defined.

Lemma speak_names_current_skill_witness :
  last (Assistant.emitted
          (Assistant.run ExtraScenario.quiet
             ([] ++ ExtraScenario.handlerStart "TimeSkill"
              :: [ExtraScenario.frame Assistant.type_audio_output_start]
              ++ [ExtraScenario.speak "it is noon"])))
  = Some (Assistant.FallbackTextRecieved "TimeSkill" [("utterance", VString "it is noon")]).
Proof.
  apply (speak_names_current_skill ExtraScenario.quiet []
           (ExtraScenario.handlerStart "TimeSkill")
           [ExtraScenario.frame Assistant.type_audio_output_start]
           (ExtraScenario.speak "it is noon")).
  - by left.
  - intros g Hg. unfold Assistant.skillTypes. rewrite !not_elem_of_cons.
    apply list_elem_of_singleton in Hg as ->.
    split_and!; try discriminate; apply not_elem_of_nil.
  - reflexivity.
Defined.

(** ** MycroftController: what a run of the controller transmits *)

Section ControllerRun.

Import Controller.

Lemma run_snoc actions a : Controller.run (actions ++ [a]) = step (Controller.run actions) a.
Proof. unfold Controller.run. by rewrite foldl_app. Qed.

Lemma sendTextCount_snoc actions a :
  sendTextCount (actions ++ [a])
  = (sendTextCount actions + match a with SendText _ => 1 | _ => 0 end)%nat.
Proof.
  induction actions as [|b actions IH]; simpl.
  - destruct a; simpl; lia.
  - destruct b; simpl; lia.
Qed.

(** X20. Every call of [sendText] either transmits one frame or prints one
    warning, never both and never neither: in any run of the controller the
    frames sent and the warnings printed add up to the calls made. *)
Theorem sendText_accounted (actions : list Action) :
  (length (sent (Controller.run actions)) + length (warnings (Controller.run actions)))%nat
  = sendTextCount actions.
Proof.
  induction actions as [|a actions IH] using rev_ind; [done|].
  rewrite run_snoc, sendTextCount_snoc, <- IH.
  destruct a; simpl; try lia.
  unfold sendText, sendRequest. case_bool_decide; simpl; rewrite length_app; simpl; lia.
Qed.

Lemma socketState_unconnected (actions : list Action) :
  (∀ a, a ∈ actions → a ≠ StateChanged ConnectedState) →
  socketState (Controller.run actions) ≠ ConnectedState.
Proof.
  induction actions as [|a actions IH] using rev_ind; intros Hall; [done|].
  rewrite run_snoc.
  assert (socketState (Controller.run actions) ≠ ConnectedState) as Hs.
  { apply IH. intros b Hb. apply Hall, elem_of_app. by left. }
  destruct a as [|state| |text]; simpl; try done.
  - intros ->. apply (Hall (StateChanged ConnectedState)); [|done].
    apply elem_of_app. right. by left.
  - unfold sendText, sendRequest. by case_bool_decide.
Qed.

(** X21. Nothing is transmitted before the socket has reported the
    connected state: in a run without that state change, whatever it calls
    and in whatever order, no frame is sent. *)
Theorem nothing_sent_before_connected (actions : list Action) :
  (∀ a, a ∈ actions → a ≠ StateChanged ConnectedState) →
  sent (Controller.run actions) = [].
Proof.
  induction actions as [|a actions IH] using rev_ind; intros Hall; [done|].
  rewrite run_snoc.
  assert (∀ b, b ∈ actions → b ≠ StateChanged ConnectedState) as Hall'.
  { intros b Hb. apply Hall, elem_of_app. by left. }
  pose proof (socketState_unconnected actions Hall') as Hs.
  specialize (IH Hall').
  destruct a as [|state| |text]; simpl; try done.
  unfold sendText, sendRequest. by rewrite bool_decide_eq_false_2.
Qed.

Lemma timer_stopped (actions : list Action) :
  reconnectTimerActive (Controller.run actions) = false →
  ∀ before after, actions = before ++ Start :: after → SocketConnected ∈ after.
Proof.
  induction actions as [|a actions IH] using rev_ind; intros Htimer before after Heq.
  { by destruct before. }
  rewrite run_snoc in Htimer.
  destruct after as [|x after _] using rev_ind.
  - apply app_inj_tail in Heq as [_ ->]. simpl in Htimer. done.
  - rewrite app_comm_cons, app_assoc in Heq. apply app_inj_tail in Heq as [-> ->].
    apply elem_of_app.
    destruct x; simpl in Htimer; try done.
    + left. eapply IH; [exact Htimer|done].
    + right. by left.
    + left. eapply IH; [|done].
      revert Htimer. unfold sendText, sendRequest. by case_bool_decide.
Qed.

(** X22. The status is [Open] only when the socket is connected and every
    call of [start] was followed by the [connected] signal of the
    socket. *)
Theorem status_open_after_connected (actions : list Action) :
  Controller.status (Controller.run actions) = Open →
  socketState (Controller.run actions) = ConnectedState ∧
  ∀ before after, actions = before ++ Start :: after → SocketConnected ∈ after.
Proof.
  intros Hopen.
  assert (socketState (Controller.run actions) = ConnectedState ∧
          reconnectTimerActive (Controller.run actions) = false) as [Hs Ht].
  { revert Hopen. unfold Controller.status.
    destruct (reconnectTimerActive _); [done|]. by destruct (socketState _). }
  split; [done|]. by apply timer_stopped.
Qed.

End ControllerRun.

Lemma nothing_sent_before_connected_witness :
  Controller.sent
    (Controller.run [Controller.Start;
                     Controller.StateChanged Controller.ConnectingState;
                     Controller.SendText "hello";
                     Controller.SocketConnected;
                     Controller.SendText "again"])
  = [].
Proof.
  apply nothing_sent_before_connected.
  intros a Ha. repeat (apply elem_of_cons in Ha as [->|Ha]; [discriminate|]).
  by apply elem_of_nil in Ha.
Defined.

Lemma status_open_after_connected_witness :
  Controller.socketState
    (Controller.run [Controller.Start;
                     Controller.StateChanged Controller.ConnectedState;
                     Controller.SocketConnected])
  = Controller.ConnectedState ∧
  ∀ before after,
    [Controller.Start; Controller.StateChanged Controller.ConnectedState;
     Controller.SocketConnected] = before ++ Controller.Start :: after →
    Controller.SocketConnected ∈ after.
Proof. apply status_open_after_connected. reflexivity. Defined.

(** ** What set and remove leave alone *)


Section Untouched.

Variable engine : string → QQmlComponent.
Variables (doc : QJsonDocument) (s : View.t).

Local Abbreviation type := (Json.toString (Json.at_ doc "type")).
Local Abbreviation skill := (Json.toString (Json.at_ doc "namespace")).
Local Abbreviation data := (Variant.toMap (Json.toVariant (Json.at_ doc "data"))).
Local Abbreviation position := (Json.toInt (Json.at_ doc "position")).
Local Abbreviation itemsNumber := (Json.toInt (Json.at_ doc "items_number")).
Local Abbreviation skills := (ActiveSkillsModel.m_skills (View.m_activeSkillsModel s)).
Local Abbreviation s' := (onGuiSocketMessageReceived engine doc s).



End Untouched.


